(** * The MPL311 pressure / altitude / temperature driver

    A shallow embedding of [src/src/mpl311.cpp] (class [mpl311], with the
    result types and the mode enumeration of [include/libhal-mpl/mpl.hpp])
    and the properties of its register protocol and unit conversions.

    Conventions of the embedding.

    - A [hal::byte] is a [byte]; arithmetic on it goes through
      [byte.unsigned] (the integer promotion of C++) and back through
      [byte.of_Z] (the narrowing to eight bits).
    - The I2C transport and the delay are outside the driver.  A run of the
      driver is recorded as a [trace] of bus transactions, each with the
      reply it got, and of delays; the transport is a function of the trace
      so far and of the request, which covers every deterministic device.
    - [HAL_CHECK(e)] leaves the enclosing function with the transport's
      error when [e] failed: it is the bind of the monad [M].  A call that
      the source does not wrap in [HAL_CHECK] is modelled as such.
    - Indexing a [std::array] outside its bounds has no defined behaviour in
      C++; the embedding makes it the outcome [undefined].
    - A number stored in a [uint16_t] or [uint32_t] keeps its low 16 or 32
      bits; a [float] stored in one loses its fraction first.
    - The three polling loops of the source are [while] loops without a
      bound; their embedding takes a bound on the number of polls ([fuel])
      and ends in the outcome [out_of_fuel] when it is used up.
    - A [float] result is given as the rational number it denotes.  Every
      float the conversions produce is an integer of at most 24 significant
      bits divided by a power of two, which binary32 represents exactly. *)

From Stdlib Require Import ZArith List Bool Lia QArith.
From Stdlib Require Strings.Byte.
From coqutil Require Import Byte.
Import ListNotations.

#[local] Open Scope Z_scope.

(** ** Data model *)

(** [enum class mpl_mode_t] of the header. *)
Inductive mpl_mode_t : Type :=
| BAROMETER_M
| ALTIMETER_M.

(** The value of an enumerator, as in [-mode]. *)
Definition mode_value (m : mpl_mode_t) : Z :=
  match m with
  | BAROMETER_M => 0
  | ALTIMETER_M => 1
  end.

Definition mode_eqb (a b : mpl_mode_t) : bool :=
  match a, b with
  | BAROMETER_M, BAROMETER_M | ALTIMETER_M, ALTIMETER_M => true
  | _, _ => false
  end.

(** The register addresses and bit masks that [mpl311.cpp] names.  Their
    header ([libhal-mpl311/mpl311.hpp]) is not among the sources, so the
    driver is embedded over any choice of them. *)
Class register_map : Type := {
  device_address : byte;
  WHOAMI_R : byte;
  CTRL_REG1 : byte;
  CTRL_REG1_RST : byte;
  CTRL_REG1_OST : byte;
  CTRL_REG1_OS128 : byte;
  CTRL_REG1_ALT : byte;
  PT_DATA_CFG_R : byte;
  PT_DATA_CFG_TDEFE : byte;
  PT_DATA_CFG_PDEFE : byte;
  PT_DATA_CFG_DREM : byte;
  STATUS_R : byte;
  STATUS_PTDR : byte;
  OUT_T_MSB_R : byte;
  OUT_P_MSB_R : byte;
  BAR_IN_MSB_R : byte;
  OFF_H_R : byte
}.

(** A bus request: [hal::write] or [hal::write_then_read] on the device at
    [address]; [len] is the size of the receive buffer.  Every call of the
    source passes [hal::never_timeout()], which is not recorded. *)
Inductive request : Type :=
| bus_write (address : byte) (data_out : list byte)
| bus_write_then_read (address : byte) (data_out : list byte) (len : nat).

(** What the transport answers: success, with the bytes read (none for a
    plain write), or its error. *)
Inductive reply (errc : Type) : Type :=
| ack (data_in : list byte)
| nack (e : errc).
Arguments ack {errc} data_in.
Arguments nack {errc} e.

Inductive event (errc : Type) : Type :=
| transaction (q : request) (r : reply errc)
| delay (ms : Z).
Arguments transaction {errc} q r.
Arguments delay {errc} ms.

(** The driver object: the tracked mode, and the trace of what it did on
    the bus, oldest event first. *)
Record mpl311 (errc : Type) : Type := {
  sensor_mode : mpl_mode_t;
  trace : list (event errc)
}.
Arguments Build_mpl311 {errc} sensor_mode trace.
Arguments sensor_mode {errc} m.
Arguments trace {errc} m.

(** How a function of the driver ends. *)
Inductive outcome (errc A : Type) : Type :=
| value (a : A)
| failure (e : errc)
| undefined
| out_of_fuel.
Arguments value {errc A} a.
Arguments failure {errc A} e.
Arguments undefined {errc A}.
Arguments out_of_fuel {errc A}.

(** A receive buffer is a [std::array<hal::byte, len>]: it has [len] bytes
    whatever the transport delivers. *)
Definition fill (len : nat) (data_in : list byte) : list byte :=
  firstn len (data_in ++ repeat Byte.x00 len).

(** The measurement results of the header; [celsius] and [meters] are
    [float]. *)
Record temperature_read_t : Type := { temperature : Q }.
Record pressure_read_t : Type := { pressure : Q }.
Record altitude_read_t : Type := { altitude : Q }.

(** Conversions of C++: to [uint16_t] / [uint32_t] and to [int16_t]. *)
Definition to_uint16 (z : Z) : Z := z mod 2 ^ 16.
Definition to_uint32 (z : Z) : Z := z mod 2 ^ 32.
Definition to_int16 (z : Z) : Z :=
  let u := z mod 2 ^ 16 in if u <? 2 ^ 15 then u else u - 2 ^ 16.

(** How the device reads a byte of the altitude offset: as a number in
    two's complement. *)
Definition to_int8 (z : Z) : Z :=
  let u := z mod 2 ^ 8 in if u <? 2 ^ 7 then u else u - 2 ^ 8.

(** Conversion of a [float] to an integer type: the fraction is dropped,
    towards zero. *)
Definition truncate (x : Q) : Z := Z.quot (Qnum x) (Zpos (Qden x)).

(** [a & b] and [a | b] on bytes. *)
Definition band (a b : byte) : Z := Z.land (byte.unsigned a) (byte.unsigned b).
Definition bor (a b : byte) : byte :=
  byte.of_Z (Z.lor (byte.unsigned a) (byte.unsigned b)).

(** ** Reading a trace *)

(** One step of [last_ctrl_write]: an acknowledged write whose register
    byte is [CTRL_REG1] replaces the value. *)
Definition ctrl_write_step {errc} {regs : register_map}
    (acc : option byte) (ev : event errc) : option byte :=
  match ev with
  | transaction (bus_write _ (r :: v :: _)) (ack _) =>
      if Byte.eqb r CTRL_REG1 then Some v else acc
  | _ => acc
  end.

(** The byte that the driver last wrote to control register 1. *)
Definition last_ctrl_write {errc} {regs : register_map}
    (tr : list (event errc)) : option byte :=
  fold_left ctrl_write_step tr None.

(** The altitude-mode bit is bit 7 of that byte ([1UL << 7] in
    [set_mode]). *)
Definition mode_bit (v : byte) : bool := Z.testbit (byte.unsigned v) 7.

Definition last_mode_bit {errc} {regs : register_map}
    (tr : list (event errc)) : option bool :=
  option_map mode_bit (last_ctrl_write tr).

(** The tracked mode mirrors the bit last written. *)
Definition mode_tracked {errc} {regs : register_map} (s : mpl311 errc) : Prop :=
  last_mode_bit (trace s) = Some (mode_eqb (sensor_mode s) ALTIMETER_M).

(** ** A simulated device

    Used for the concrete runs only.  The register map is the one of the
    MPL3115A2 data sheet. *)

Definition mpl3115a2 : register_map := {|
  device_address := Byte.x60;
  WHOAMI_R := Byte.x0c;
  CTRL_REG1 := Byte.x26;
  CTRL_REG1_RST := Byte.x04;
  CTRL_REG1_OST := Byte.x02;
  CTRL_REG1_OS128 := Byte.x38;
  CTRL_REG1_ALT := Byte.x80;
  PT_DATA_CFG_R := Byte.x13;
  PT_DATA_CFG_TDEFE := Byte.x01;
  PT_DATA_CFG_PDEFE := Byte.x02;
  PT_DATA_CFG_DREM := Byte.x04;
  STATUS_R := Byte.x00;
  STATUS_PTDR := Byte.x08;
  OUT_T_MSB_R := Byte.x04;
  OUT_P_MSB_R := Byte.x01;
  BAR_IN_MSB_R := Byte.x14;
  OFF_H_R := Byte.x2d
|}.

(** What the bench puts behind the registers. *)
Record bench : Type := {
  identity : byte;
  status_glitch : bool;
  temperature_out : list byte;
  pressure_out : list byte
}.

Definition is_status_read (ev : event unit) : bool :=
  match ev with
  | transaction (bus_write_then_read _ [r] _) _ => Byte.eqb r Byte.x00
  | _ => false
  end.

(** Control register 1 reads back as last written, the self-clearing reset
    and one-shot bits as zero; the status register reports data ready, after
    one failed transaction when [status_glitch] is set. *)
Definition bench_transport (b : bench)
    (tr : list (event unit)) (q : request) : reply unit :=
  match q with
  | bus_write_then_read _ [r] _ =>
      if Byte.eqb r Byte.x0c then ack [identity b]
      else if Byte.eqb r Byte.x26 then
        match last_ctrl_write (regs := mpl3115a2) tr with
        | Some v => ack [byte.of_Z (Z.land (byte.unsigned v) 0xF9)]
        | None => ack [Byte.x00]
        end
      else if Byte.eqb r Byte.x00 then
        if status_glitch b && negb (existsb is_status_read tr)
        then nack tt else ack [Byte.x08]
      else if Byte.eqb r Byte.x04 then ack (temperature_out b)
      else if Byte.eqb r Byte.x01 then ack (pressure_out b)
      else ack []
  | _ => ack []
  end.

Definition fresh (mode : mpl_mode_t) : mpl311 unit :=
  {| sensor_mode := mode; trace := [] |}.

(** The benches of the concrete runs: a device that answers as it should,
    with 26 degrees and 1024 Pa in its output registers; one with another
    identity; one whose status register fails once; one whose output
    registers hold a number with the top bit set. *)
Definition healthy : bench := {|
  identity := Byte.xc4;
  status_glitch := false;
  temperature_out := [Byte.x1a; Byte.x00];
  pressure_out := [Byte.x01; Byte.x00; Byte.x00]
|}.

Definition stranger : bench := {|
  identity := Byte.x00;
  status_glitch := false;
  temperature_out := [Byte.x1a; Byte.x00];
  pressure_out := [Byte.x01; Byte.x00; Byte.x00]
|}.

Definition glitchy : bench := {|
  identity := Byte.xc4;
  status_glitch := true;
  temperature_out := [Byte.x1a; Byte.x00];
  pressure_out := [Byte.x01; Byte.x00; Byte.x00]
|}.

Definition top_bit_set : bench := {|
  identity := Byte.xc4;
  status_glitch := false;
  temperature_out := [Byte.x1a; Byte.x00];
  pressure_out := [Byte.x80; Byte.x00; Byte.x00]
|}.

Definition polls_again : unit -> bool := fun _ => false.

(** Further benches: output registers that hold 0x00, 0x01, 0x00; a bus on
    which every transaction fails; a device that leaves its reset bit set
    for the first two reads of control register 1. *)
Definition one_metre : bench := {|
  identity := Byte.xc4;
  status_glitch := false;
  temperature_out := [Byte.x1a; Byte.x00];
  pressure_out := [Byte.x00; Byte.x01; Byte.x00]
|}.

Definition dead_bus (tr : list (event unit)) (q : request) : reply unit :=
  nack tt.

Definition is_ctrl_read (ev : event unit) : bool :=
  match ev with
  | transaction (bus_write_then_read _ [r] _) _ => Byte.eqb r Byte.x26
  | _ => false
  end.

Definition slow_reset (tr : list (event unit)) (q : request) : reply unit :=
  match q with
  | bus_write_then_read _ [r] _ =>
      if Byte.eqb r Byte.x26 && (length (filter is_ctrl_read tr) <? 2)%nat
      then ack [Byte.x04]
      else bench_transport healthy tr q
  | _ => ack []
  end.

Definition gives_up : unit -> bool := fun _ => true.

(** A device that answers like the healthy one until it is told to
    reset a second time, and to nothing after that. *)
Definition is_reset_write (ev : event unit) : bool :=
  match ev with
  | transaction (bus_write _ [r; v]) (ack _) =>
      Byte.eqb r Byte.x26 && Byte.eqb v Byte.x04
  | _ => false
  end.

Definition lost_at_second_reset
    (tr : list (event unit)) (q : request) : reply unit :=
  if (2 <=? length (filter is_reset_write tr))%nat then nack tt
  else bench_transport healthy tr q.

(** ** The driver *)

Section Driver.

Context {errc : Type} {regs : register_map}.

(** The device and its bus, as seen from the driver. *)
Variable transport : list (event errc) -> request -> reply errc.

(** What a caller sees of a [bool] function that [HAL_CHECK] left with an
    error; see [as_condition]. *)
Variable error_flag : errc -> bool.

Definition M (A : Type) : Type := mpl311 errc -> outcome errc A * mpl311 errc.

Definition ret {A} (a : A) : M A := fun s => (value a, s).

Definition bind {A B} (m : M A) (k : A -> M B) : M B :=
  fun s =>
    match m s with
    | (value a, s') => k a s'
    | (failure e, s') => (failure e, s')
    | (undefined, s') => (undefined, s')
    | (out_of_fuel, s') => (out_of_fuel, s')
    end.

Notation "x <- m ;; k" := (bind m (fun x => k))
  (at level 100, m at next level, right associativity).
Notation "m ;;; k" := (bind m (fun _ => k))
  (at level 100, right associativity).

(** A call whose result the caller drops: the callee may have left early
    through [HAL_CHECK], the caller goes on. *)
Definition unchecked {A} (m : M A) : M unit :=
  fun s =>
    match m s with
    | (value _, s') => (value tt, s')
    | (failure _, s') => (value tt, s')
    | (undefined, s') => (undefined, s')
    | (out_of_fuel, s') => (out_of_fuel, s')
    end.

Definition record (ev : event errc) (s : mpl311 errc) : mpl311 errc :=
  {| sensor_mode := sensor_mode s; trace := trace s ++ [ev] |}.

(** [HAL_CHECK(hal::write(.., device_address, payload, ..))] *)
Definition hal_write (payload : list byte) : M unit :=
  fun s =>
    let q := bus_write device_address payload in
    let r := transport (trace s) q in
    match r with
    | ack _ => (value tt, record (transaction q r) s)
    | nack e => (failure e, record (transaction q r) s)
    end.

(** [HAL_CHECK(hal::write_then_read(.., device_address, payload,
    buffer, ..))] with a buffer of [len] bytes; gives the buffer. *)
Definition hal_write_then_read (payload : list byte) (len : nat)
  : M (list byte) :=
  fun s =>
    let q := bus_write_then_read device_address payload len in
    let r := transport (trace s) q in
    match r with
    | ack data_in => (value (fill len data_in), record (transaction q r) s)
    | nack e => (failure e, record (transaction q r) s)
    end.

(** [hal::delay(m_clk, 10ms)] *)
Definition hal_delay (ms : Z) : M unit :=
  fun s => (value tt, record (delay ms) s).

(** [buffer[i]] *)
Definition at_index (buffer : list byte) (i : nat) : M byte :=
  fun s =>
    match nth_error buffer i with
    | Some b => (value b, s)
    | None => (undefined, s)
    end.

Definition set_sensor_mode (mode : mpl_mode_t) : M unit :=
  fun s => (value tt, {| sensor_mode := mode; trace := trace s |}).

Definition get_sensor_mode : M mpl_mode_t :=
  fun s => (value (sensor_mode s), s).

Definition spin {A} : M A := fun s => (out_of_fuel, s).

(** The loop of [begin] (lines 22-28, with [mask = CTRL_REG1_RST]) and
    the loop of [initiate_one_shot] (lines 68-74, with
    [mask = CTRL_REG1_OST]): read control register 1 until the masked bit
    is clear, 10 ms apart; gives [ctrl_buffer[0]] as last read. *)
Fixpoint poll_ctrl_reg1 (mask : byte) (fuel : nat) : M byte :=
  match fuel with
  | O => spin
  | S fuel' =>
      ctrl_buffer <- hal_write_then_read [CTRL_REG1] 1 ;;
      c <- at_index ctrl_buffer 0 ;;
      if band c mask =? 0 then ret c
      else (hal_delay 10 ;;; poll_ctrl_reg1 mask fuel')
  end.

(** [bool mpl311::begin()] *)
Definition begin (fuel : nat) : M bool :=
  whoami_buffer <- hal_write_then_read [WHOAMI_R] 1 ;;
  w <- at_index whoami_buffer 0 ;;
  if negb (byte.unsigned w =? 0xC4) then ret false
  else
    (hal_write [CTRL_REG1; CTRL_REG1_RST] ;;;
     poll_ctrl_reg1 CTRL_REG1_RST fuel ;;;
     set_sensor_mode ALTIMETER_M ;;;
     hal_write [CTRL_REG1; bor CTRL_REG1_OS128 CTRL_REG1_ALT] ;;;
     hal_write [PT_DATA_CFG_R;
                bor (bor PT_DATA_CFG_TDEFE PT_DATA_CFG_PDEFE)
                    PT_DATA_CFG_DREM] ;;;
     ret true).

(** The event of control register 1 reading back as the single byte
    [c]. *)
Definition ctrl_read_back (c : byte) : event errc :=
  transaction (bus_write_then_read device_address [CTRL_REG1] 1) (ack [c]).

(** [void mpl311::set_mode(mpl311_mode_t mode)].  The new register value
    is [ctrl_buffer[0] ^= (-mode ^ ctrl_buffer[0]) & (1UL << 7)],
    narrowed to a byte. *)
Definition mode_set_reg (mode : mpl_mode_t) (c : byte) : byte :=
  byte.of_Z
    (Z.lxor (byte.unsigned c)
       (Z.land (Z.lxor (- mode_value mode) (byte.unsigned c))
               (Z.shiftl 1 7))).

Definition set_mode (mode : mpl_mode_t) : M unit :=
  ctrl_buffer <- hal_write_then_read [CTRL_REG1] 1 ;;
  c <- at_index ctrl_buffer 0 ;;
  hal_write [CTRL_REG1; mode_set_reg mode c] ;;;
  set_sensor_mode mode.

(** [void mpl311::initiate_one_shot()].  The value written is
    [ctrl_buffer[0] |= 1UL << 1]. *)
Definition ost_set_reg (c : byte) : byte :=
  byte.of_Z (Z.lor (byte.unsigned c) (Z.shiftl 1 1)).

Definition initiate_one_shot (fuel : nat) : M unit :=
  c <- poll_ctrl_reg1 CTRL_REG1_OST fuel ;;
  hal_write [CTRL_REG1; ost_set_reg c].

(** [bool mpl311::check_data_ready_flag()] *)
Definition check_data_ready_flag : M bool :=
  status_buffer <- hal_write_then_read [STATUS_R] 1 ;;
  st <- at_index status_buffer 0 ;;
  ret (negb (band st STATUS_PTDR =? 0)).

(** [check_data_ready_flag] is declared [bool] and its callers use the
    call as a condition, without [HAL_CHECK]: when the transaction inside
    it fails, the caller gets a truth value and goes on.  The source does
    not say which; [error_flag] is that truth value, and every property
    below holds for each choice of it. *)
Definition as_condition (m : M bool) : M bool :=
  fun s =>
    match m s with
    | (failure e, s') => (value (error_flag e), s')
    | other => other
    end.

(** [while (!check_data_ready_flag()) hal::delay(m_clk, 10ms);] *)
Fixpoint wait_data_ready (fuel : nat) : M unit :=
  match fuel with
  | O => spin
  | S fuel' =>
      ready <- as_condition check_data_ready_flag ;;
      if ready then ret tt
      else (hal_delay 10 ;;; wait_data_ready fuel')
  end.

(** [int16_t temp_reading = uint16_t(msb) << 8 | uint16_t(lsb)] *)
Definition temp_reading (msb lsb : byte) : Z :=
  to_int16 (Z.lor (Z.shiftl (to_uint16 (byte.unsigned msb)) 8)
                  (to_uint16 (byte.unsigned lsb))).

(** [hal::result<temperature_read_t> mpl311::t_read()].  The two operands
    of the reading are [temp_buffer[0]] and [temp_buffer[4]]. *)
Definition t_read (fuel : nat) : M temperature_read_t :=
  unchecked (initiate_one_shot fuel) ;;;
  wait_data_ready fuel ;;;
  temp_buffer <- hal_write_then_read [OUT_T_MSB_R] 2 ;;
  msb <- at_index temp_buffer 0 ;;
  lsb <- at_index temp_buffer 4 ;;
  ret {| temperature := inject_Z (temp_reading msb lsb) / 256 |}.

(** [uint32_t pressure_reading = uint32_t(msb) << 16 | uint32_t(csb) << 8
    | uint32_t(lsb)] *)
Definition pressure_reading (msb csb lsb : byte) : Z :=
  Z.lor (Z.lor (to_uint32 (Z.shiftl (to_uint32 (byte.unsigned msb)) 16))
               (to_uint32 (Z.shiftl (to_uint32 (byte.unsigned csb)) 8)))
        (to_uint32 (byte.unsigned lsb)).

(** [hal::result<pressure_read_t> mpl311::p_read()].  The source calls
    [setMode], which is [set_mode], as a statement. *)
Definition p_read (fuel : nat) : M pressure_read_t :=
  mode <- get_sensor_mode ;;
  (if negb (mode_eqb mode BAROMETER_M)
   then unchecked (set_mode BAROMETER_M) else ret tt) ;;;
  unchecked (initiate_one_shot fuel) ;;;
  wait_data_ready fuel ;;;
  pres_buffer <- hal_write_then_read [OUT_P_MSB_R] 3 ;;
  msb <- at_index pres_buffer 0 ;;
  csb <- at_index pres_buffer 1 ;;
  lsb <- at_index pres_buffer 2 ;;
  ret {| pressure := inject_Z (pressure_reading msb csb lsb) / 64 |}.

(** [uint32_t alt_reading = uint32_t(msb) << 24 | uint32_t(csb) << 16
    | uint32_t(lsb) << 8] *)
Definition alt_reading (msb csb lsb : byte) : Z :=
  Z.lor (Z.lor (to_uint32 (Z.shiftl (to_uint32 (byte.unsigned msb)) 24))
               (to_uint32 (Z.shiftl (to_uint32 (byte.unsigned csb)) 16)))
        (to_uint32 (Z.shiftl (to_uint32 (byte.unsigned lsb)) 8)).

(** [hal::result<altitude_read_t> mpl311::a_read()].  The source indexes
    [buffer], a name it does not declare; the buffer of the function is
    [alt_buffer], which the transaction just above fills. *)
Definition a_read (fuel : nat) : M altitude_read_t :=
  mode <- get_sensor_mode ;;
  (if negb (mode_eqb mode ALTIMETER_M)
   then unchecked (set_mode ALTIMETER_M) else ret tt) ;;;
  unchecked (initiate_one_shot fuel) ;;;
  wait_data_ready fuel ;;;
  alt_buffer <- hal_write_then_read [OUT_P_MSB_R] 3 ;;
  msb <- at_index alt_buffer 0 ;;
  csb <- at_index alt_buffer 1 ;;
  lsb <- at_index alt_buffer 2 ;;
  ret {| altitude := inject_Z (alt_reading msb csb lsb) / 65536 |}.

(** [uint16_t bar = sea_level_pressure / 2] (line 168): the fraction of
    the half is dropped and the low 16 bits of the whole part are kept.
    The line has no test and no branch. *)
Definition bar_of (sea_level_pressure : Q) : Z :=
  to_uint16 (truncate (sea_level_pressure / 2)).

(** [void mpl311::set_sea_pressure(float sea_level_pressure)] *)
Definition set_sea_pressure (sea_level_pressure : Q) : M unit :=
  let bar := bar_of sea_level_pressure in
  hal_write [BAR_IN_MSB_R;
             byte.of_Z (Z.shiftr bar 8);
             byte.of_Z (Z.land bar 0xFF)].

(** [void mpl311::set_altitude_offset(int8_t offset)] *)
Definition set_altitude_offset (offset : Z) : M unit :=
  hal_write [OFF_H_R; byte.of_Z offset].

(** ** Runs and their traces *)

(** [m] only adds events that satisfy [P] to the trace. *)
Definition emits {A} (P : event errc -> Prop) (m : M A) : Prop :=
  forall s, exists suffix,
    trace (snd (m s)) = trace s ++ suffix /\ Forall P suffix.

(** [m] leaves the tracked mode as it is. *)
Definition keeps_mode {A} (m : M A) : Prop :=
  forall s, sensor_mode (snd (m s)) = sensor_mode s.

(** An event other than a read into a buffer of more than one byte. *)
Definition short (ev : event errc) : Prop :=
  match ev with
  | transaction (bus_write_then_read _ _ len) _ => len = 1%nat
  | _ => True
  end.

(** An event other than a plain write. *)
Definition quiet (ev : event errc) : Prop :=
  match ev with
  | transaction (bus_write _ _) _ => False
  | _ => True
  end.

(** The statements of [p_read] up to the data-ready loop, and the ones
    after it; [p_read_split] below puts them together again. *)
Definition p_prepare (fuel : nat) : M unit :=
  mode <- get_sensor_mode ;;
  (if negb (mode_eqb mode BAROMETER_M)
   then unchecked (set_mode BAROMETER_M) else ret tt) ;;;
  unchecked (initiate_one_shot fuel) ;;;
  wait_data_ready fuel.

Definition p_fetch : M pressure_read_t :=
  pres_buffer <- hal_write_then_read [OUT_P_MSB_R] 3 ;;
  msb <- at_index pres_buffer 0 ;;
  csb <- at_index pres_buffer 1 ;;
  lsb <- at_index pres_buffer 2 ;;
  ret {| pressure := inject_Z (pressure_reading msb csb lsb) / 64 |}.

(** Every value that [m] gives satisfies [Q]. *)
Definition yields {A} (Q : A -> Prop) (m : M A) : Prop :=
  forall s a, fst (m s) = value a -> Q a.

(** The statements of [p_read] after the one-shot trigger. *)
Definition p_measure (fuel : nat) : M pressure_read_t :=
  wait_data_ready fuel ;;; p_fetch.

(** A Hoare triple: from a state in [P], [m] ends with a value in [Q],
    or without one in a state in [R]. *)
Definition triple {A} (P : mpl311 errc -> Prop) (m : M A)
    (Q : A -> mpl311 errc -> Prop) (R : mpl311 errc -> Prop) : Prop :=
  forall s, P s ->
    match m s with
    | (value a, s') => Q a s'
    | (_, s') => R s'
    end.

(** [m] keeps the tracked mode in step with the last write. *)
Definition tracks {A} (m : M A) : Prop :=
  triple mode_tracked m (fun _ => mode_tracked) mode_tracked.

(** [m] never ends with the transport's error. *)
Definition never_fails {A} (m : M A) : Prop :=
  forall s e, fst (m s) <> failure e.

(** An event other than a failed transaction. *)
Definition acked (ev : event errc) : Prop :=
  match ev with
  | transaction _ (nack _) => False
  | _ => True
  end.

(** [m] stops at the first transaction that fails and returns its error:
    a failed transaction is the last event of the run, and the run then
    ends with that failure. *)
Definition strict {A} (m : M A) : Prop :=
  forall s, exists suffix,
    trace (snd (m s)) = trace s ++ suffix /\
    match fst (m s) with
    | failure e =>
        exists before q,
          suffix = before ++ [transaction q (nack e)] /\ Forall acked before
    | _ => Forall acked suffix
    end.

(** [m] never indexes a buffer outside its bounds. *)
Definition never_undefined {A} (m : M A) : Prop :=
  forall s, fst (m s) <> undefined.

(** The events of the driver: a delay of 10 ms; a write to the device,
    whose first byte names control register 1, the data-configuration
    register, the sea-level-pressure input or the altitude offset; a read
    from the device that sends one register byte and takes as many bytes as
    the register has. *)
Definition expected (ev : event errc) : Prop :=
  match ev with
  | delay ms => ms = 10
  | transaction (bus_write a (r :: _)) _ =>
      a = device_address /\
      In r [CTRL_REG1; PT_DATA_CFG_R; BAR_IN_MSB_R; OFF_H_R]
  | transaction (bus_write_then_read a [r] len) _ =>
      a = device_address /\
      In (r, len)
         [(WHOAMI_R, 1%nat); (CTRL_REG1, 1%nat); (STATUS_R, 1%nat);
          (OUT_T_MSB_R, 2%nat); (OUT_P_MSB_R, 3%nat)]
  | _ => False
  end.

(** The result of [f] does not depend on the bound on its loops, once
    the bound lets them end. *)
Definition settles {A} (f : nat -> M A) : Prop :=
  forall n m s, (n <= m)%nat -> fst (f n s) <> out_of_fuel -> f m s = f n s.

(** What a polling loop on control register 1 does while the bit under
    [mask] is set: it reads the register with the bit set, and it waits
    10 ms. *)
Definition pending (mask : byte) (ev : event errc) : Prop :=
  match ev with
  | delay ms => ms = 10
  | transaction (bus_write_then_read a [r] 1) (ack d) =>
      a = device_address /\ r = CTRL_REG1 /\
      exists c, nth_error (fill 1 d) 0 = Some c /\ band c mask <> 0
  | _ => False
  end.

(** When [m] ends with the transport's error, the transaction that
    failed is [q], the last of the trace. *)
Definition fails_at {A} (q : request) (m : M A) : Prop :=
  forall s e,
    fst (m s) = failure e ->
    exists before, trace (snd (m s)) = before ++ [transaction q (nack e)].

(** The statements of [a_read] up to the data-ready loop, the ones after
    it, and the ones after the one-shot trigger. *)
Definition a_prepare (fuel : nat) : M unit :=
  mode <- get_sensor_mode ;;
  (if negb (mode_eqb mode ALTIMETER_M)
   then unchecked (set_mode ALTIMETER_M) else ret tt) ;;;
  unchecked (initiate_one_shot fuel) ;;;
  wait_data_ready fuel.

Definition a_fetch : M altitude_read_t :=
  alt_buffer <- hal_write_then_read [OUT_P_MSB_R] 3 ;;
  msb <- at_index alt_buffer 0 ;;
  csb <- at_index alt_buffer 1 ;;
  lsb <- at_index alt_buffer 2 ;;
  ret {| altitude := inject_Z (alt_reading msb csb lsb) / 65536 |}.

Definition a_measure (fuel : nat) : M altitude_read_t :=
  wait_data_ready fuel ;;; a_fetch.

(** From the trace [tr] to the trace [tr'], the only plain write, if any,
    is the one-shot trigger of the byte just read back. *)
Definition one_shot_only (tr tr' : list (event errc)) : Prop :=
  exists before after,
    Forall quiet before /\ Forall quiet after /\
    (tr' = tr ++ before ++ after \/
     exists d c w,
       nth_error (fill 1 d) 0 = Some c /\
       tr' =
         tr ++ before ++
         [transaction (bus_write_then_read device_address [CTRL_REG1] 1)
                      (ack d);
          transaction (bus_write device_address [CTRL_REG1; ost_set_reg c])
                      w] ++ after).

(** An answer of the status register that ends the data-ready loop: the
    data-ready bit is set, or the transaction failed and the loop took the
    failure for "ready". *)
Definition ready (r : reply errc) : Prop :=
  match r with
  | ack d => exists st, nth_error (fill 1 d) 0 = Some st /\
                        band st STATUS_PTDR <> 0
  | nack e => error_flag e = true
  end.

(** ** Properties *)

Lemma bind_assoc {A B C} (m : M A) (f : A -> M B) (g : B -> M C) s :
  bind (bind m f) g s = bind m (fun a => bind (f a) g) s.
Proof. unfold bind. destruct (m s) as [[a | e | | ] s1]; reflexivity. Qed.

Lemma bind_ext {A B} (m : M A) (f g : A -> M B) s :
  (forall a s', f a s' = g a s') -> bind m f s = bind m g s.
Proof.
  intros H. unfold bind. destruct (m s) as [[a | e | | ] s1]; auto.
Qed.

(** Moves the statements after a block out of it, one at a time. *)
Ltac regroup :=
  repeat match goal with
    | |- _ = bind (bind ?m ?f) ?g ?s =>
        rewrite (bind_assoc m f g s); apply bind_ext; intros ? ?
    end;
  try reflexivity.

Lemma p_read_split fuel s :
  p_read fuel s = bind (p_prepare fuel) (fun _ => p_fetch) s.
Proof. unfold p_read, p_prepare. regroup. Qed.

(** *** What a run adds to the trace *)

Section Emits.

Variable P : event errc -> Prop.

Lemma emits_ret {A} (a : A) : emits P (ret a).
Proof. intros s. exists []. cbn. now rewrite app_nil_r. Qed.

Lemma emits_spin {A} : emits P (@spin A).
Proof. intros s. exists []. cbn. now rewrite app_nil_r. Qed.

Lemma emits_bind {A B} (m : M A) (k : A -> M B) :
  emits P m -> (forall a, emits P (k a)) -> emits P (bind m k).
Proof.
  intros Hm Hk s. unfold bind. destruct (Hm s) as [suf1 [E1 F1]].
  destruct (m s) as [[a | e | | ] s1]; cbn in E1;
    try (exists suf1; cbn; now split).
  destruct (Hk a s1) as [suf2 [E2 F2]]. exists (suf1 ++ suf2).
  rewrite E2, E1, app_assoc. split; [reflexivity|].
  apply Forall_app. now split.
Qed.

Lemma emits_unchecked {A} (m : M A) : emits P m -> emits P (unchecked m).
Proof.
  intros Hm s. unfold unchecked. destruct (Hm s) as [suf [E F]].
  exists suf. destruct (m s) as [[a | e | | ] s1]; cbn in *; now split.
Qed.

Lemma emits_as_condition (m : M bool) :
  emits P m -> emits P (as_condition m).
Proof.
  intros Hm s. unfold as_condition. destruct (Hm s) as [suf [E F]].
  exists suf. destruct (m s) as [[a | e | | ] s1]; cbn in *; now split.
Qed.

Lemma emits_at_index buffer i : emits P (at_index buffer i).
Proof.
  intros s. exists []. unfold at_index.
  destruct (nth_error buffer i); cbn; now rewrite app_nil_r.
Qed.

Lemma emits_get_sensor_mode : emits P get_sensor_mode.
Proof. intros s. exists []. cbn. now rewrite app_nil_r. Qed.

Lemma emits_set_sensor_mode mode : emits P (set_sensor_mode mode).
Proof. intros s. exists []. cbn. now rewrite app_nil_r. Qed.

Lemma emits_hal_delay ms : P (delay ms) -> emits P (hal_delay ms).
Proof. intros H s. exists [delay ms]. cbn. split; auto. Qed.

Lemma emits_hal_write payload :
  (forall r, P (transaction (bus_write device_address payload) r)) ->
  emits P (hal_write payload).
Proof.
  intros H s. unfold hal_write.
  exists [transaction (bus_write device_address payload)
            (transport (trace s) (bus_write device_address payload))].
  destruct (transport _ _); cbn; split; auto.
Qed.

Lemma emits_hal_write_then_read payload len :
  (forall r, P (transaction
                  (bus_write_then_read device_address payload len) r)) ->
  emits P (hal_write_then_read payload len).
Proof.
  intros H s. unfold hal_write_then_read.
  exists [transaction (bus_write_then_read device_address payload len)
            (transport (trace s)
               (bus_write_then_read device_address payload len))].
  destruct (transport _ _); cbn; split; auto.
Qed.

End Emits.

Create HintDb emits.
#[local] Hint Resolve emits_ret emits_spin emits_unchecked emits_as_condition
  emits_at_index emits_get_sensor_mode emits_set_sensor_mode : emits.

(** Walks through a sequence of statements. *)
Ltac emits_steps :=
  repeat first
    [ apply emits_bind; [| intros ?]
    | apply emits_hal_write; intros ?; exact I
    | apply emits_hal_write_then_read; intros ?; cbn; solve [auto]
    | apply emits_hal_delay; exact I
    | solve [auto with emits] ].

Lemma emits_short_poll mask fuel : emits short (poll_ctrl_reg1 mask fuel).
Proof.
  induction fuel as [| fuel IH]; cbn [poll_ctrl_reg1]; [apply emits_spin|].
  emits_steps. destruct (_ =? _); emits_steps.
Qed.

Lemma emits_short_wait fuel : emits short (wait_data_ready fuel).
Proof.
  induction fuel as [| fuel IH]; cbn [wait_data_ready]; [apply emits_spin|].
  unfold check_data_ready_flag.
  apply emits_bind; [apply emits_as_condition; emits_steps |].
  intros [|]; emits_steps.
Qed.

Lemma emits_short_set_mode mode : emits short (set_mode mode).
Proof. unfold set_mode. emits_steps. Qed.

Lemma emits_short_initiate_one_shot fuel :
  emits short (initiate_one_shot fuel).
Proof.
  unfold initiate_one_shot. apply emits_bind; [apply emits_short_poll|].
  intros c. emits_steps.
Qed.

Lemma emits_short_p_prepare fuel : emits short (p_prepare fuel).
Proof.
  unfold p_prepare. apply emits_bind; [apply emits_get_sensor_mode|].
  intros mode. apply emits_bind.
  { destruct (negb _); auto using emits_unchecked, emits_short_set_mode,
      emits_ret. }
  intros _. apply emits_bind.
  { apply emits_unchecked, emits_short_initiate_one_shot. }
  intros _. apply emits_short_wait.
Qed.


Lemma fill_length len data_in : length (fill len data_in) = len.
Proof.
  unfold fill. rewrite length_firstn, length_app, repeat_length. lia.
Qed.

(** C4.  When the identity register reads back as a single byte other
    than 0xC4, [begin] ends with [false], its report of an unexpected
    device, and the identity transaction is all it did on the bus: the
    trace grows by that one event, and no write follows. *)
Theorem begin_unexpected_device (fuel : nat) (s : mpl311 errc) (w : byte) :
  transport (trace s) (bus_write_then_read device_address [WHOAMI_R] 1)
    = ack [w] ->
  byte.unsigned w <> 0xC4 ->
  begin fuel s =
    (value false,
     record (transaction
               (bus_write_then_read device_address [WHOAMI_R] 1) (ack [w]))
            s).
Proof.
  intros Hid Hw. unfold begin, bind at 1, hal_write_then_read.
  rewrite Hid. cbn.
  destruct (Z.eqb_spec (byte.unsigned w) 196) as [E | _]; [contradiction|].
  reflexivity.
Qed.

(** *** Mode switching *)

Lemma mode_set_reg_unsigned (mode : mpl_mode_t) (c : byte) :
  byte.unsigned (mode_set_reg mode c) =
    match mode with
    | BAROMETER_M => Z.land (byte.unsigned c) (Z.ones 7)
    | ALTIMETER_M => Z.lor (byte.unsigned c) (2 ^ 7)
    end.
Proof. destruct mode, c; reflexivity. Qed.

Lemma byte_bits_high (c : byte) (i : Z) :
  8 <= i -> Z.testbit (byte.unsigned c) i = false.
Proof.
  intros Hi. rewrite <- (byte.wrap_unsigned c). unfold byte.wrap.
  apply Z.mod_pow2_bits_high. lia.
Qed.

Lemma mode_set_reg_other_bits (mode : mpl_mode_t) (c : byte) (i : Z) :
  i <> 7 ->
  Z.testbit (byte.unsigned (mode_set_reg mode c)) i
    = Z.testbit (byte.unsigned c) i.
Proof.
  intros Hi. rewrite mode_set_reg_unsigned. destruct mode.
  - rewrite Z.land_spec.
    destruct (Z.lt_ge_cases i 0) as [Hneg | Hpos].
    + now rewrite !Z.testbit_neg_r.
    + destruct (Z.lt_ge_cases i 7) as [Hlo | Hhi].
      * rewrite Z.ones_spec_low by lia. apply andb_true_r.
      * rewrite byte_bits_high by lia. reflexivity.
  - rewrite Z.lor_spec, Z.pow2_bits_false by lia. apply orb_false_r.
Qed.

Lemma mode_set_reg_mode_bit (mode : mpl_mode_t) (c : byte) :
  mode_bit (mode_set_reg mode c) = mode_eqb mode ALTIMETER_M.
Proof. destruct mode, c; reflexivity. Qed.

(** C6.  With control register 1 reading back as [c] and the write
    acknowledged, [set_mode target] writes one byte to the register, which
    agrees with [c] on every bit but bit 7, the altitude-mode bit, and has
    that bit set exactly when [target] is the altimeter mode; the tracked
    mode is [target] afterwards. *)
Theorem set_mode_forces_mode_bit
    (target : mpl_mode_t) (s : mpl311 errc) (c : byte) (d : list byte) :
  transport (trace s) (bus_write_then_read device_address [CTRL_REG1] 1)
    = ack [c] ->
  transport (trace s ++ [ctrl_read_back c])
            (bus_write device_address [CTRL_REG1; mode_set_reg target c])
    = ack d ->
  exists v : byte,
    set_mode target s =
      (value tt,
       {| sensor_mode := target;
          trace := (trace s ++ [ctrl_read_back c]) ++
                   [transaction
                      (bus_write device_address [CTRL_REG1; v]) (ack d)] |})
    /\ (forall i, i <> 7 ->
           Z.testbit (byte.unsigned v) i = Z.testbit (byte.unsigned c) i)
    /\ Z.testbit (byte.unsigned v) 7 = mode_eqb target ALTIMETER_M.
Proof.
  intros Hread Hwrite. exists (mode_set_reg target c).
  split; [| split].
  - unfold set_mode, bind, hal_write_then_read. rewrite Hread. cbn.
    unfold hal_write. cbn. fold (ctrl_read_back c). rewrite Hwrite.
    reflexivity.
  - intros i Hi. now apply mode_set_reg_other_bits.
  - apply mode_set_reg_mode_bit.
Qed.

(** *** Pressure *)

Lemma to_uint32_shiftl_byte (b : byte) (n : Z) :
  0 <= n <= 24 ->
  to_uint32 (Z.shiftl (to_uint32 (byte.unsigned b)) n)
    = Z.shiftl (byte.unsigned b) n.
Proof.
  intros Hn. pose proof (byte.unsigned_range b) as Hb. unfold to_uint32.
  rewrite (Z.mod_small (byte.unsigned b)) by lia.
  rewrite Z.shiftl_mul_pow2 by lia. apply Z.mod_small.
  assert (0 < 2 ^ n <= 2 ^ 24) by
    (split; [apply Z.pow_pos_nonneg | apply Z.pow_le_mono_r]; lia).
  change (2 ^ 24) with 16777216 in *. nia.
Qed.

Lemma to_uint32_byte (b : byte) : to_uint32 (byte.unsigned b) = byte.unsigned b.
Proof.
  pose proof (byte.unsigned_range b). apply Z.mod_small. lia.
Qed.

(** The conversions to [uint32_t] lose nothing. *)
Lemma pressure_reading_packed (msb csb lsb : byte) :
  pressure_reading msb csb lsb =
    Z.lor (Z.lor (Z.shiftl (byte.unsigned msb) 16)
                 (Z.shiftl (byte.unsigned csb) 8))
          (byte.unsigned lsb).
Proof.
  unfold pressure_reading.
  now rewrite !to_uint32_shiftl_byte, to_uint32_byte by lia.
Qed.

Lemma p_fetch_trace s :
  trace (snd (p_fetch s)) =
    trace s ++
    [transaction (bus_write_then_read device_address [OUT_P_MSB_R] 3)
       (transport (trace s)
          (bus_write_then_read device_address [OUT_P_MSB_R] 3))].
Proof.
  unfold p_fetch, bind, hal_write_then_read, at_index.
  destruct (transport _ _) as [d | e]; [| reflexivity].
  generalize (fill 3 d) as buffer. intros buffer.
  repeat match goal with
    | |- context [nth_error ?b ?i] => destruct (nth_error b i)
    end; reflexivity.
Qed.

Lemma p_fetch_value s msb csb lsb :
  transport (trace s) (bus_write_then_read device_address [OUT_P_MSB_R] 3)
    = ack [msb; csb; lsb] ->
  fst (p_fetch s) =
    value {| pressure := inject_Z (pressure_reading msb csb lsb) / 64 |}.
Proof.
  intros H. unfold p_fetch, bind, hal_write_then_read. now rewrite H.
Qed.

(** C9.  In every run of [p_read] that ends with the output-register
    transaction answered by the bytes [msb], [csb], [lsb], the result is
    the unsigned number [(msb << 16) | (csb << 8) | lsb] divided by 64,
    in pascals; for the bytes 0x01, 0x00, 0x00 that is 1024 Pa. *)
Theorem p_read_conversion
    (fuel : nat) (s : mpl311 errc) (before : list (event errc))
    (msb csb lsb : byte) :
  trace (snd (p_read fuel s)) =
    trace s ++ before ++
    [transaction (bus_write_then_read device_address [OUT_P_MSB_R] 3)
                 (ack [msb; csb; lsb])] ->
  exists r : pressure_read_t,
    fst (p_read fuel s) = value r
    /\ pressure r =
         (inject_Z (Z.lor (Z.lor (Z.shiftl (byte.unsigned msb) 16)
                                 (Z.shiftl (byte.unsigned csb) 8))
                          (byte.unsigned lsb)) / 64)%Q
    /\ (msb = Byte.x01 -> csb = Byte.x00 -> lsb = Byte.x00 ->
        (pressure r == 1024)%Q).
Proof.
  rewrite p_read_split. intros H.
  destruct (emits_short_p_prepare fuel s) as [suf [E F]].
  unfold bind in *.
  destruct (p_prepare fuel s) as [[[] | e | | ] s1]; cbn [fst snd] in *.
  - rewrite p_fetch_trace, E, <- app_assoc in H.
    apply app_inv_head in H.
    apply app_inj_tail in H. destruct H as [_ H].
    injection H as H. rewrite <- E in H. rewrite (p_fetch_value _ _ _ _ H).
    eexists. split; [reflexivity|]. cbn [pressure].
    rewrite pressure_reading_packed. split; [reflexivity|].
    intros -> -> ->. reflexivity.
  - exfalso. rewrite E in H. apply app_inv_head in H. subst suf.
    apply Forall_app in F. destruct F as [_ F]. inversion F as [| ? ? F1 _].
    discriminate F1.
  - exfalso. rewrite E in H. apply app_inv_head in H. subst suf.
    apply Forall_app in F. destruct F as [_ F]. inversion F as [| ? ? F1 _].
    discriminate F1.
  - exfalso. rewrite E in H. apply app_inv_head in H. subst suf.
    apply Forall_app in F. destruct F as [_ F]. inversion F as [| ? ? F1 _].
    discriminate F1.
Qed.

(** *** Values *)

Lemma yields_ret {A} (Q : A -> Prop) (a : A) : Q a -> yields Q (ret a).
Proof. intros H s a' E. cbn in E. now injection E as <-. Qed.

Lemma yields_bind {A B} (Q : B -> Prop) (m : M A) (k : A -> M B) :
  (forall a, yields Q (k a)) -> yields Q (bind m k).
Proof.
  intros Hk s b. unfold bind.
  destruct (m s) as [[a | e | | ] s1]; cbn; try discriminate.
  apply Hk.
Qed.

Lemma yields_at_index_none {A} (Q : A -> Prop) buffer i (k : byte -> M A) :
  nth_error buffer i = None -> yields Q (bind (at_index buffer i) k).
Proof.
  intros H s a. unfold bind, at_index. rewrite H. discriminate.
Qed.

Lemma yields_hal_write_then_read {A} (Q : A -> Prop) payload len
    (k : list byte -> M A) :
  (forall data_in, yields Q (k (fill len data_in))) ->
  yields Q (bind (hal_write_then_read payload len) k).
Proof.
  intros Hk s a. unfold bind, hal_write_then_read.
  destruct (transport _ _) as [d | e]; [apply Hk | discriminate].
Qed.

(** *** Temperature *)

Lemma temp_buffer_index_4 data_in : nth_error (fill 2 data_in) 4 = None.
Proof. apply nth_error_None. rewrite fill_length. lia. Qed.

(** C2 (what the code does).  [temp_buffer] has two bytes and [t_read]
    takes its second operand at index 4, which no contents of the buffer
    make valid; so no run of [t_read] gives a temperature. *)
Theorem t_read_index_out_of_bounds (fuel : nat) (s : mpl311 errc) :
  (forall data_in, at_index (fill 2 data_in) 4 s = (undefined, s))
  /\ (forall r, fst (t_read fuel s) <> value r).
Proof.
  split.
  - intros d. unfold at_index. now rewrite temp_buffer_index_4.
  - intros r E. revert s r E. change (yields (fun _ => False) (t_read fuel)).
    unfold t_read. do 2 (apply yields_bind; intros _).
    apply yields_hal_write_then_read. intros d.
    apply yields_bind. intros msb.
    apply yields_at_index_none, temp_buffer_index_4.
Qed.

(** *** Altitude *)

Lemma alt_reading_nonneg msb csb lsb : 0 <= alt_reading msb csb lsb.
Proof.
  unfold alt_reading, to_uint32.
  repeat (apply Z.lor_nonneg; split); apply Z.mod_pos_bound; reflexivity.
Qed.

(** C3 (what the code does).  [alt_reading] is a [uint32_t]: whatever the
    three bytes are, also with the top bit of the first one set, the
    altitude that [a_read] gives is not negative. *)
Theorem a_read_never_negative
    (fuel : nat) (s : mpl311 errc) (r : altitude_read_t) :
  fst (a_read fuel s) = value r -> (0 <= altitude r)%Q.
Proof.
  revert s r. change (yields (fun r => (0 <= altitude r)%Q) (a_read fuel)).
  unfold a_read. do 4 (apply yields_bind; intros ?).
  apply yields_hal_write_then_read. intros d.
  apply yields_bind; intros msb. apply yields_bind; intros csb.
  apply yields_bind; intros lsb. apply yields_ret. cbn [altitude].
  generalize (alt_reading_nonneg msb csb lsb).
  generalize (alt_reading msb csb lsb) as z. intros z H.
  unfold Qle, Qdiv, Qmult, Qinv, inject_Z. cbn. lia.
Qed.

(** *** The tracked mode along a run *)

Lemma keeps_mode_ret {A} (a : A) : keeps_mode (ret a).
Proof. intros s. reflexivity. Qed.

Lemma keeps_mode_spin {A} : keeps_mode (@spin A).
Proof. intros s. reflexivity. Qed.

Lemma keeps_mode_bind {A B} (m : M A) (k : A -> M B) :
  keeps_mode m -> (forall a, keeps_mode (k a)) -> keeps_mode (bind m k).
Proof.
  intros Hm Hk s. unfold bind. specialize (Hm s).
  destruct (m s) as [[a | e | | ] s1]; cbn in *; try assumption.
  now rewrite Hk.
Qed.

Lemma keeps_mode_unchecked {A} (m : M A) :
  keeps_mode m -> keeps_mode (unchecked m).
Proof.
  intros Hm s. unfold unchecked. specialize (Hm s).
  destruct (m s) as [[a | e | | ] s1]; assumption.
Qed.

Lemma keeps_mode_as_condition (m : M bool) :
  keeps_mode m -> keeps_mode (as_condition m).
Proof.
  intros Hm s. unfold as_condition. specialize (Hm s).
  destruct (m s) as [[a | e | | ] s1]; assumption.
Qed.

Lemma keeps_mode_at_index buffer i : keeps_mode (at_index buffer i).
Proof. intros s. unfold at_index. now destruct (nth_error buffer i). Qed.

Lemma keeps_mode_hal_delay ms : keeps_mode (hal_delay ms).
Proof. intros s. reflexivity. Qed.

Lemma keeps_mode_hal_write payload : keeps_mode (hal_write payload).
Proof. intros s. unfold hal_write. now destruct (transport _ _). Qed.

Lemma keeps_mode_hal_write_then_read payload len :
  keeps_mode (hal_write_then_read payload len).
Proof. intros s. unfold hal_write_then_read. now destruct (transport _ _). Qed.

Create HintDb keeps.
#[local] Hint Resolve keeps_mode_ret keeps_mode_spin keeps_mode_unchecked
  keeps_mode_as_condition keeps_mode_at_index keeps_mode_hal_delay
  keeps_mode_hal_write keeps_mode_hal_write_then_read : keeps.

Ltac keeps_steps :=
  repeat first
    [ apply keeps_mode_bind; [| intros ?] | solve [auto with keeps] ].

Lemma keeps_mode_poll mask fuel : keeps_mode (poll_ctrl_reg1 mask fuel).
Proof.
  induction fuel as [| fuel IH]; cbn [poll_ctrl_reg1]; keeps_steps.
  destruct (_ =? _); keeps_steps.
Qed.

Lemma keeps_mode_initiate_one_shot fuel :
  keeps_mode (initiate_one_shot fuel).
Proof.
  unfold initiate_one_shot.
  apply keeps_mode_bind; [apply keeps_mode_poll | keeps_steps].
Qed.

Lemma keeps_mode_check_data_ready_flag : keeps_mode check_data_ready_flag.
Proof. unfold check_data_ready_flag. keeps_steps. Qed.

Lemma keeps_mode_wait fuel : keeps_mode (wait_data_ready fuel).
Proof.
  induction fuel as [| fuel IH]; cbn [wait_data_ready]; keeps_steps.
  - apply keeps_mode_as_condition, keeps_mode_check_data_ready_flag.
  - destruct a; keeps_steps.
Qed.

Lemma keeps_mode_p_measure fuel : keeps_mode (p_measure fuel).
Proof.
  unfold p_measure, p_fetch.
  apply keeps_mode_bind; [apply keeps_mode_wait | intros _; keeps_steps].
Qed.

Lemma emits_quiet_poll mask fuel : emits quiet (poll_ctrl_reg1 mask fuel).
Proof.
  induction fuel as [| fuel IH]; cbn [poll_ctrl_reg1]; [apply emits_spin|].
  emits_steps. destruct (_ =? _); emits_steps.
Qed.

Lemma emits_quiet_wait fuel : emits quiet (wait_data_ready fuel).
Proof.
  induction fuel as [| fuel IH]; cbn [wait_data_ready]; [apply emits_spin|].
  unfold check_data_ready_flag.
  apply emits_bind; [apply emits_as_condition; emits_steps |].
  intros [|]; emits_steps.
Qed.

Lemma emits_quiet_p_measure fuel : emits quiet (p_measure fuel).
Proof.
  unfold p_measure, p_fetch.
  apply emits_bind; [apply emits_quiet_wait | intros _; emits_steps].
Qed.

(** *** The one-shot trigger *)

Lemma ost_set_reg_mode_bit (c : byte) : mode_bit (ost_set_reg c) = mode_bit c.
Proof. destruct c; reflexivity. Qed.

(** One turn of the polling loop. *)
Lemma poll_step mask fuel s :
  poll_ctrl_reg1 mask (S fuel) s =
    match transport (trace s)
            (bus_write_then_read device_address [CTRL_REG1] 1) with
    | ack d =>
        let s1 :=
          record (transaction
                    (bus_write_then_read device_address [CTRL_REG1] 1)
                    (ack d)) s in
        match nth_error (fill 1 d) 0 with
        | Some c =>
            if band c mask =? 0 then (value c, s1)
            else poll_ctrl_reg1 mask fuel (record (delay 10) s1)
        | None => (undefined, s1)
        end
    | nack e =>
        (failure e,
         record (transaction
                   (bus_write_then_read device_address [CTRL_REG1] 1)
                   (nack e)) s)
    end.
Proof.
  cbn [poll_ctrl_reg1]. unfold bind at 1, hal_write_then_read.
  destruct (transport (trace s) _) as [d | e]; [| reflexivity].
  unfold bind at 1, at_index. cbv zeta.
  destruct (nth_error (fill 1 d) 0) as [c |]; [| reflexivity].
  destruct (band c mask =? 0); reflexivity.
Qed.

(** The polls of control register 1 write nothing; when the loop ends
    with a value, that value is the byte of the last read. *)
Lemma poll_shape mask fuel : forall s,
  exists before,
    Forall quiet before /\
    match fst (poll_ctrl_reg1 mask fuel s) with
    | value c =>
        exists d,
          nth_error (fill 1 d) 0 = Some c /\
          trace (snd (poll_ctrl_reg1 mask fuel s)) =
            trace s ++ before ++
            [transaction (bus_write_then_read device_address [CTRL_REG1] 1)
                         (ack d)]
    | _ => trace (snd (poll_ctrl_reg1 mask fuel s)) = trace s ++ before
    end.
Proof.
  induction fuel as [| fuel IH]; intros s.
  - exists []. split; [constructor|]. cbn. now rewrite app_nil_r.
  - rewrite poll_step.
    destruct (transport (trace s) _) as [d | e] eqn:T; cbv zeta.
    + destruct (nth_error (fill 1 d) 0) as [c |] eqn:N.
      * destruct (band c mask =? 0).
        -- exists []. split; [constructor|]. cbn [fst snd].
           exists d. split; [assumption | reflexivity].
        -- match goal with
           | |- context [poll_ctrl_reg1 mask fuel ?s2] =>
               destruct (IH s2) as [rest [F H]]; exists
                 ([transaction
                     (bus_write_then_read device_address [CTRL_REG1] 1)
                     (ack d); delay 10] ++ rest);
               split; [repeat (constructor; [exact I |]); assumption |];
               destruct (poll_ctrl_reg1 mask fuel s2) as [[c' | e | | ] s3]
           end; cbn [fst snd] in *.
           ++ destruct H as [d' [N' H]]. exists d'. split; [assumption|].
              rewrite H. cbn [record trace]. now rewrite <- !app_assoc.
           ++ rewrite H. cbn [record trace]. now rewrite <- !app_assoc.
           ++ rewrite H. cbn [record trace]. now rewrite <- !app_assoc.
           ++ rewrite H. cbn [record trace]. now rewrite <- !app_assoc.
      * eexists [_]. split; [| reflexivity].
        constructor; [exact I | constructor].
    + eexists [_]. split; [| reflexivity].
      constructor; [exact I | constructor].
Qed.

Lemma initiate_one_shot_shape fuel s :
  exists before,
    Forall quiet before /\
    (trace (snd (initiate_one_shot fuel s)) = trace s ++ before \/
     exists d c w,
       nth_error (fill 1 d) 0 = Some c /\
       trace (snd (initiate_one_shot fuel s)) =
         trace s ++ before ++
         [transaction (bus_write_then_read device_address [CTRL_REG1] 1)
                      (ack d);
          transaction (bus_write device_address [CTRL_REG1; ost_set_reg c])
                      w]).
Proof.
  destruct (poll_shape CTRL_REG1_OST fuel s) as [before [F H]].
  exists before. split; [assumption|].
  unfold initiate_one_shot, bind.
  destruct (poll_ctrl_reg1 CTRL_REG1_OST fuel s) as [[c | e | | ] s1];
    cbn [fst snd] in *; try (left; assumption).
  right. destruct H as [d [N H]]. unfold hal_write.
  exists d, c,
    (transport (trace s1)
       (bus_write device_address [CTRL_REG1; ost_set_reg c])).
  split; [assumption|].
  destruct (transport (trace s1) _); cbn [snd record trace];
    rewrite H, <- !app_assoc; reflexivity.
Qed.

Lemma unchecked_then_state {A B} (m : M A) (k : unit -> M B) s :
  emits quiet (k tt) ->
  exists after,
    Forall quiet after /\
    trace (snd (bind (unchecked m) k s)) = trace (snd (m s)) ++ after.
Proof.
  intros Hk. unfold bind, unchecked.
  destruct (m s) as [[a | e | | ] s1]; cbn [snd];
    try (destruct (Hk s1) as [after [E F]]; exists after; now split);
    exists []; (split; [constructor | now rewrite app_nil_r]).
Qed.

(** *** Pressure reads and the mode *)

Lemma p_read_barometer fuel s :
  sensor_mode s = BAROMETER_M ->
  p_read fuel s =
    bind (unchecked (initiate_one_shot fuel)) (fun _ => p_measure fuel) s.
Proof.
  intros Hm. unfold p_read. unfold bind at 1. cbn [get_sensor_mode].
  rewrite Hm. cbn [mode_eqb negb]. unfold bind at 1. reflexivity.
Qed.

(** C5.  A call of [p_read] that finds the tracked mode at [BAROMETER_M]
    leaves it there, and writes at most once: the one-shot trigger, the
    byte it has just read back from control register 1 with bit 1 set and
    the altitude-mode bit as read.  No mode write is among its
    transactions, so none is in the second of two calls in a row.
    [set_mode], whatever the tracked mode, issues its write of the mode
    byte once the register has read back. *)
Theorem p_read_skips_mode_write
    (fuel : nat) (s : mpl311 errc)
    (target : mpl_mode_t) (s0 : mpl311 errc) (c0 : byte) :
  (sensor_mode s = BAROMETER_M ->
   sensor_mode (snd (p_read fuel s)) = BAROMETER_M /\
   exists before after,
     Forall quiet before /\ Forall quiet after /\
     (trace (snd (p_read fuel s)) = trace s ++ before ++ after \/
      exists d c w,
        nth_error (fill 1 d) 0 = Some c /\
        mode_bit (ost_set_reg c) = mode_bit c /\
        trace (snd (p_read fuel s)) =
          trace s ++ before ++
          [transaction (bus_write_then_read device_address [CTRL_REG1] 1)
                       (ack d);
           transaction (bus_write device_address [CTRL_REG1; ost_set_reg c])
                       w] ++ after))
  /\
  (transport (trace s0) (bus_write_then_read device_address [CTRL_REG1] 1)
     = ack [c0] ->
   exists w,
     trace (snd (set_mode target s0)) =
       trace s0 ++
       [ctrl_read_back c0;
        transaction
          (bus_write device_address [CTRL_REG1; mode_set_reg target c0]) w]).
Proof.
  split.
  - intros Hm. rewrite (p_read_barometer fuel s Hm). split.
    + rewrite <- Hm. apply keeps_mode_bind.
      * apply keeps_mode_unchecked, keeps_mode_initiate_one_shot.
      * intros _. apply keeps_mode_p_measure.
    + destruct (unchecked_then_state (initiate_one_shot fuel)
                  (fun _ => p_measure fuel) s (emits_quiet_p_measure fuel))
        as [after [Fa Ha]].
      destruct (initiate_one_shot_shape fuel s) as [before [Fb Hb]].
      exists before, after. repeat split; try assumption.
      rewrite Ha. destruct Hb as [Hb | [d [c [w [N Hb]]]]].
      * left. now rewrite Hb, <- app_assoc.
      * right. exists d, c, w. split; [assumption|].
        split; [apply ost_set_reg_mode_bit|].
        rewrite Hb, <- !app_assoc. reflexivity.
  - intros Hread. unfold set_mode, bind, hal_write_then_read.
    rewrite Hread. cbn. unfold hal_write. fold (ctrl_read_back c0).
    cbn [record trace].
    generalize (transport (trace s0 ++ [ctrl_read_back c0])
                  (bus_write device_address
                     [CTRL_REG1; mode_set_reg target c0])).
    intros w. exists w.
    destruct w; cbn; rewrite <- app_assoc; reflexivity.
Qed.

(** *** Hoare rules *)

Lemma triple_ret {A} P (a : A) (Q : A -> _ -> Prop) R :
  (forall s, P s -> Q a s) -> triple P (ret a) Q R.
Proof. intros H s HP. now apply H. Qed.

Lemma triple_spin {A} P (Q : A -> _ -> Prop) (R : _ -> Prop) :
  (forall s, P s -> R s) -> triple P spin Q R.
Proof. intros H s HP. now apply H. Qed.

Lemma triple_bind {A B} P (m : M A) (k : A -> M B) Q' Q R :
  triple P m Q' R -> (forall a, triple (Q' a) (k a) Q R) ->
  triple P (bind m k) Q R.
Proof.
  intros Hm Hk s HP. specialize (Hm s HP). unfold bind.
  destruct (m s) as [[a | e | | ] s1]; try assumption.
  now apply Hk.
Qed.

Lemma triple_unchecked {A} P (m : M A) (Q : unit -> _ -> Prop) (R : _ -> Prop) :
  triple P m (fun _ s => Q tt s) (fun s => Q tt s /\ R s) ->
  triple P (unchecked m) Q R.
Proof.
  intros Hm s HP. specialize (Hm s HP). unfold unchecked.
  destruct (m s) as [[a | e | | ] s1]; tauto.
Qed.

Lemma triple_as_condition P (m : M bool) (Q : bool -> _ -> Prop) (R : _ -> Prop) :
  triple P m Q (fun s => (forall b, Q b s) /\ R s) ->
  triple P (as_condition m) Q R.
Proof.
  intros Hm s HP. specialize (Hm s HP). unfold as_condition.
  destruct (m s) as [[a | e | | ] s1]; try tauto. apply Hm.
Qed.

Lemma triple_at_index P buffer i (Q : byte -> _ -> Prop) (R : _ -> Prop) :
  (forall s b, P s -> nth_error buffer i = Some b -> Q b s) ->
  (forall s, P s -> R s) ->
  triple P (at_index buffer i) Q R.
Proof.
  intros HQ HR s HP. unfold at_index.
  destruct (nth_error buffer i); auto.
Qed.

Lemma triple_get_sensor_mode P (Q : mpl_mode_t -> _ -> Prop) R :
  (forall s, P s -> Q (sensor_mode s) s) -> triple P get_sensor_mode Q R.
Proof. intros H s HP. now apply H. Qed.

Lemma triple_set_sensor_mode P mode (Q : unit -> _ -> Prop) R :
  (forall s, P s -> Q tt {| sensor_mode := mode; trace := trace s |}) ->
  triple P (set_sensor_mode mode) Q R.
Proof. intros H s HP. now apply H. Qed.

Lemma triple_hal_delay P ms (Q : unit -> _ -> Prop) R :
  (forall s, P s -> Q tt (record (delay ms) s)) ->
  triple P (hal_delay ms) Q R.
Proof. intros H s HP. now apply H. Qed.

Lemma triple_hal_write P payload (Q : unit -> _ -> Prop) (R : _ -> Prop) :
  (forall s d, P s ->
     Q tt (record (transaction (bus_write device_address payload) (ack d))
                  s)) ->
  (forall s e, P s ->
     R (record (transaction (bus_write device_address payload) (nack e))
               s)) ->
  triple P (hal_write payload) Q R.
Proof.
  intros HQ HR s HP. unfold hal_write.
  destruct (transport _ _); auto.
Qed.

Lemma triple_hal_write_then_read P payload len
    (Q : list byte -> _ -> Prop) (R : _ -> Prop) :
  (forall s d, P s ->
     transport (trace s) (bus_write_then_read device_address payload len)
       = ack d ->
     Q (fill len d)
       (record (transaction
                  (bus_write_then_read device_address payload len) (ack d))
               s)) ->
  (forall s e, P s ->
     R (record (transaction
                  (bus_write_then_read device_address payload len) (nack e))
               s)) ->
  triple P (hal_write_then_read payload len) Q R.
Proof.
  intros HQ HR s HP. unfold hal_write_then_read.
  destruct (transport _ _) eqn:T; auto.
Qed.

(** *** The last write to control register 1 *)

Lemma last_ctrl_write_record ev (s : mpl311 errc) :
  last_ctrl_write (trace (record ev s))
    = ctrl_write_step (last_ctrl_write (trace s)) ev.
Proof. unfold last_ctrl_write. cbn. now rewrite fold_left_app. Qed.

Lemma tracked_record_same ev (s : mpl311 errc) :
  (forall acc, ctrl_write_step acc ev = acc) ->
  mode_tracked s -> mode_tracked (record ev s).
Proof.
  intros H. unfold mode_tracked, last_mode_bit.
  now rewrite last_ctrl_write_record, H.
Qed.

Lemma tracked_record_delay ms (s : mpl311 errc) :
  mode_tracked s -> mode_tracked (record (delay ms) s).
Proof. now apply tracked_record_same. Qed.

Lemma tracked_record_read payload len r (s : mpl311 errc) :
  mode_tracked s ->
  mode_tracked
    (record (transaction
               (bus_write_then_read device_address payload len) r) s).
Proof. now apply tracked_record_same. Qed.

Lemma tracked_record_nack payload e (s : mpl311 errc) :
  mode_tracked s ->
  mode_tracked
    (record (transaction (bus_write device_address payload) (nack e)) s).
Proof.
  apply tracked_record_same. intros acc. cbn.
  now destruct payload as [| ? [| ? ?]].
Qed.

Lemma tracked_record_other r0 rest d (s : mpl311 errc) :
  r0 <> CTRL_REG1 ->
  mode_tracked s ->
  mode_tracked
    (record (transaction (bus_write device_address (r0 :: rest)) (ack d)) s).
Proof.
  intros Hr. apply tracked_record_same. intros acc. cbn.
  destruct rest; [reflexivity|].
  destruct (Byte.eqb r0 CTRL_REG1) eqn:E; [| reflexivity].
  now apply Byte.byte_dec_bl in E.
Qed.

Lemma tracked_record_ctrl v d (s : mpl311 errc) :
  mode_bit v = mode_eqb (sensor_mode s) ALTIMETER_M ->
  mode_tracked
    (record (transaction (bus_write device_address [CTRL_REG1; v]) (ack d))
            s).
Proof.
  intros Hv. unfold mode_tracked, last_mode_bit.
  rewrite last_ctrl_write_record. unfold ctrl_write_step.
  rewrite (Byte.byte_dec_lb (x := CTRL_REG1) eq_refl).
  cbn [option_map record sensor_mode]. now rewrite Hv.
Qed.

Lemma triple_weaken {A} (P P' : _ -> Prop) (m : M A)
    (Q Q' : A -> _ -> Prop) (R R' : _ -> Prop) :
  triple P m Q R ->
  (forall s, P' s -> P s) ->
  (forall a s, Q a s -> Q' a s) ->
  (forall s, R s -> R' s) ->
  triple P' m Q' R'.
Proof.
  intros Hm HP HQ HR s HP'. specialize (Hm s (HP s HP')).
  destruct (m s) as [[a | e | | ] s1]; auto.
Qed.

Lemma mode_bit_of_Z z : mode_bit (byte.of_Z z) = Z.testbit z 7.
Proof.
  unfold mode_bit. rewrite byte.unsigned_of_Z. unfold byte.wrap.
  apply Z.mod_pow2_bits_low. lia.
Qed.

Lemma mode_bit_bor a b : mode_bit (bor a b) = mode_bit a || mode_bit b.
Proof. unfold bor. rewrite mode_bit_of_Z. apply Z.lor_spec. Qed.

(** *** The mode-tracking invariant *)

Lemma tracks_ret {A} (a : A) : tracks (ret a).
Proof. now apply triple_ret. Qed.

Lemma tracks_spin {A} : tracks (@spin A).
Proof. now apply triple_spin. Qed.

Lemma tracks_bind {A B} (m : M A) (k : A -> M B) :
  tracks m -> (forall a, tracks (k a)) -> tracks (bind m k).
Proof. intros Hm Hk. eapply triple_bind; [exact Hm | exact Hk]. Qed.

Lemma tracks_unchecked {A} (m : M A) : tracks m -> tracks (unchecked m).
Proof.
  intros Hm. apply triple_unchecked.
  eapply triple_weaken; [exact Hm | auto ..].
Qed.

Lemma tracks_as_condition (m : M bool) : tracks m -> tracks (as_condition m).
Proof.
  intros Hm. apply triple_as_condition.
  eapply triple_weaken; [exact Hm | auto ..].
Qed.

Lemma tracks_at_index buffer i : tracks (at_index buffer i).
Proof. now apply triple_at_index. Qed.

Lemma tracks_get_sensor_mode : tracks get_sensor_mode.
Proof. now apply triple_get_sensor_mode. Qed.

Lemma tracks_hal_delay ms : tracks (hal_delay ms).
Proof. apply triple_hal_delay. intros s. apply tracked_record_delay. Qed.

Lemma tracks_hal_write_then_read payload len :
  tracks (hal_write_then_read payload len).
Proof.
  apply triple_hal_write_then_read; intros; now apply tracked_record_read.
Qed.

Lemma tracks_hal_write_other r0 rest :
  r0 <> CTRL_REG1 -> tracks (hal_write (r0 :: rest)).
Proof.
  intros Hr. apply triple_hal_write; intros.
  - now apply tracked_record_other.
  - now apply tracked_record_nack.
Qed.

Create HintDb tracks.
#[local] Hint Resolve tracks_ret tracks_spin tracks_unchecked
  tracks_as_condition tracks_at_index tracks_get_sensor_mode
  tracks_hal_delay tracks_hal_write_then_read tracks_hal_write_other
  : tracks.

Ltac tracks_steps :=
  repeat first
    [ apply tracks_bind; [| intros ?] | solve [auto with tracks] ].

Lemma tracks_check_data_ready_flag : tracks check_data_ready_flag.
Proof. unfold check_data_ready_flag. tracks_steps. Qed.

Lemma tracks_wait_data_ready fuel : tracks (wait_data_ready fuel).
Proof.
  induction fuel as [| fuel IH]; cbn [wait_data_ready]; tracks_steps.
  - apply tracks_as_condition, tracks_check_data_ready_flag.
  - destruct a; tracks_steps.
Qed.

(** [set_mode] restores the invariant when it succeeds, and keeps it when
    it does not. *)
Lemma set_mode_tracked mode (P : mpl311 errc -> Prop) :
  (forall s payload len r, P s ->
     P (record (transaction
                  (bus_write_then_read device_address payload len) r) s)) ->
  (forall s payload e, P s ->
     P (record (transaction (bus_write device_address payload) (nack e))
               s)) ->
  triple P (set_mode mode) (fun _ => mode_tracked) P.
Proof.
  intros Hread Hnack. unfold set_mode.
  apply triple_bind with (Q' := fun _ => P).
  { apply triple_hal_write_then_read; intros; now apply Hread. }
  intros ctrl_buffer. apply triple_bind with (Q' := fun _ => P).
  { now apply triple_at_index. }
  intros c.
  apply triple_bind with
    (Q' := fun _ s =>
             last_mode_bit (trace s) = Some (mode_eqb mode ALTIMETER_M)).
  { apply triple_hal_write; intros s x Hs; [| now apply Hnack].
    unfold last_mode_bit. rewrite last_ctrl_write_record.
    unfold ctrl_write_step.
    rewrite (Byte.byte_dec_lb (x := CTRL_REG1) eq_refl).
    cbn [option_map]. now rewrite mode_set_reg_mode_bit. }
  intros _. apply triple_set_sensor_mode. intros s Hs. exact Hs.
Qed.

Lemma tracks_set_mode mode : tracks (set_mode mode).
Proof.
  apply set_mode_tracked; intros.
  - now apply tracked_record_read.
  - now apply tracked_record_nack.
Qed.

Section Tracking.

(** Bit 7 is the altitude-mode bit of the register map, as it is the
    one of [set_mode]. *)
Hypothesis alt_is_bit_7 : mode_bit CTRL_REG1_ALT = true.

(** The registers that the driver writes besides control register 1
    are other registers. *)
Hypothesis cfg_is_not_ctrl : PT_DATA_CFG_R <> CTRL_REG1.
Hypothesis bar_is_not_ctrl : BAR_IN_MSB_R <> CTRL_REG1.
Hypothesis off_is_not_ctrl : OFF_H_R <> CTRL_REG1.

(** Nothing but the driver writes the register: it reads back with the
    altitude-mode bit that the driver last wrote. *)
Hypothesis read_back_as_written :
  forall tr d c b,
    transport tr (bus_write_then_read device_address [CTRL_REG1] 1)
      = ack d ->
    nth_error (fill 1 d) 0 = Some c ->
    last_mode_bit tr = Some b ->
    mode_bit c = b.

Lemma poll_tracked mask fuel :
  triple mode_tracked (poll_ctrl_reg1 mask fuel)
    (fun c s =>
       mode_tracked s /\ mode_bit c = mode_eqb (sensor_mode s) ALTIMETER_M)
    mode_tracked.
Proof.
  induction fuel as [| fuel IH]; cbn [poll_ctrl_reg1].
  { now apply triple_spin. }
  apply triple_bind with
    (Q' := fun buffer s =>
             mode_tracked s /\
             forall c, nth_error buffer 0 = Some c ->
                       mode_bit c = mode_eqb (sensor_mode s) ALTIMETER_M).
  { apply triple_hal_write_then_read.
    - intros s d Hs T. split; [now apply tracked_record_read|].
      intros c N. exact (read_back_as_written _ _ _ _ T N Hs).
    - intros s e Hs. now apply tracked_record_read. }
  intros buffer.
  apply triple_bind with
    (Q' := fun c s =>
             mode_tracked s /\
             mode_bit c = mode_eqb (sensor_mode s) ALTIMETER_M).
  { apply triple_at_index.
    - intros s c [Hs Hc] N. split; [assumption | now apply Hc].
    - now intros s [Hs _]. }
  intros c. destruct (band c mask =? 0).
  - now apply triple_ret.
  - apply triple_bind with (Q' := fun _ => mode_tracked).
    + apply triple_hal_delay. intros s [Hs _].
      now apply tracked_record_delay.
    + intros _. exact IH.
Qed.

Lemma tracks_initiate_one_shot fuel : tracks (initiate_one_shot fuel).
Proof.
  unfold initiate_one_shot.
  eapply triple_bind; [apply poll_tracked |]. intros c.
  apply triple_hal_write.
  - intros s d [Hs Hc]. apply tracked_record_ctrl.
    now rewrite ost_set_reg_mode_bit.
  - intros s e [Hs _]. now apply tracked_record_nack.
Qed.

Lemma tracks_prelude {A} required fuel (k : M A) :
  tracks k ->
  tracks (mode <- get_sensor_mode ;;
          (if negb (mode_eqb mode required)
           then unchecked (set_mode required) else ret tt) ;;;
          unchecked (initiate_one_shot fuel) ;;;
          wait_data_ready fuel ;;; k).
Proof.
  intros Hk. apply tracks_bind; [apply tracks_get_sensor_mode|].
  intros mode. apply tracks_bind.
  { destruct (negb _);
      [apply tracks_unchecked, tracks_set_mode | apply tracks_ret]. }
  intros _. apply tracks_bind.
  { apply tracks_unchecked, tracks_initiate_one_shot. }
  intros _. apply tracks_bind; [apply tracks_wait_data_ready|].
  intros _. exact Hk.
Qed.

Lemma tracks_t_read fuel : tracks (t_read fuel).
Proof.
  unfold t_read. apply tracks_bind.
  { apply tracks_unchecked, tracks_initiate_one_shot. }
  intros _. apply tracks_bind; [apply tracks_wait_data_ready|].
  intros _. tracks_steps.
Qed.

Lemma tracks_p_read fuel : tracks (p_read fuel).
Proof. unfold p_read. apply tracks_prelude. tracks_steps. Qed.

Lemma tracks_a_read fuel : tracks (a_read fuel).
Proof. unfold a_read. apply tracks_prelude. tracks_steps. Qed.

Lemma tracks_set_sea_pressure x : tracks (set_sea_pressure x).
Proof.
  unfold set_sea_pressure. now apply tracks_hal_write_other.
Qed.

Lemma tracks_set_altitude_offset offset :
  tracks (set_altitude_offset offset).
Proof. now apply tracks_hal_write_other. Qed.

Lemma triple_trivial {A} (m : M A) :
  triple (fun _ => True) m (fun _ _ => True) (fun _ => True).
Proof. intros s _. now destruct (m s) as [[a | e | | ] s1]. Qed.

Lemma begin_tracked fuel :
  triple (fun _ => True) (begin fuel)
    (fun ok s => ok = true -> mode_tracked s) (fun _ => True).
Proof.
  unfold begin.
  eapply triple_bind; [apply triple_trivial |]. intros whoami_buffer.
  eapply triple_bind; [apply triple_trivial |]. intros w. cbv beta.
  destruct (negb _).
  { apply triple_ret. discriminate. }
  eapply triple_bind; [apply triple_trivial |]. intros ?. cbv beta.
  eapply triple_bind; [apply triple_trivial |]. intros ?. cbv beta.
  apply triple_bind with (Q' := fun _ s => sensor_mode s = ALTIMETER_M).
  { now apply triple_set_sensor_mode. }
  intros _. apply triple_bind with (Q' := fun _ => mode_tracked).
  { apply triple_hal_write; [| trivial]. intros s d Hs.
    apply tracked_record_ctrl.
    rewrite mode_bit_bor, alt_is_bit_7, Hs. apply orb_true_r. }
  intros _. apply triple_bind with (Q' := fun _ => mode_tracked).
  { apply triple_hal_write; [| trivial]. intros s d Hs.
    now apply tracked_record_other. }
  intros _. now apply triple_ret.
Qed.

Lemma triple_any {A} (P : mpl311 errc -> Prop) (m : M A) :
  triple P m (fun _ _ => True) (fun _ => True).
Proof. intros s _. now destruct (m s) as [[a | e | | ] s1]. Qed.

(** From a state in which the invariant holds, [begin] keeps it whenever
    it returns: with [false] it has only read the identity, with [true]
    it has written the mode it recorded. *)
Lemma begin_value_tracked fuel :
  triple mode_tracked (begin fuel) (fun _ => mode_tracked) (fun _ => True).
Proof.
  unfold begin.
  apply triple_bind with (Q' := fun _ => mode_tracked).
  { eapply triple_weaken;
      [apply tracks_hal_write_then_read | auto | auto | auto]. }
  intros whoami_buffer.
  apply triple_bind with (Q' := fun _ => mode_tracked).
  { eapply triple_weaken; [apply tracks_at_index | auto | auto | auto]. }
  intros w. destruct (negb _).
  { now apply triple_ret. }
  eapply triple_bind; [apply triple_any |]. intros ?. cbv beta.
  eapply triple_bind; [apply triple_any |]. intros ?. cbv beta.
  apply triple_bind with (Q' := fun _ s => sensor_mode s = ALTIMETER_M).
  { now apply triple_set_sensor_mode. }
  intros _. apply triple_bind with (Q' := fun _ => mode_tracked).
  { apply triple_hal_write; [| trivial]. intros s d Hs.
    apply tracked_record_ctrl.
    rewrite mode_bit_bor, alt_is_bit_7, Hs. apply orb_true_r. }
  intros _. apply triple_bind with (Q' := fun _ => mode_tracked).
  { apply triple_hal_write; [| trivial]. intros s d Hs.
    now apply tracked_record_other. }
  intros _. now apply triple_ret.
Qed.

(** Reads a triple at a state. *)
Lemma tracks_at {A} (m : M A) s :
  tracks m -> mode_tracked s -> mode_tracked (snd (m s)).
Proof.
  intros Hm Hs. specialize (Hm s Hs).
  now destruct (m s) as [[a | e | | ] s1].
Qed.


End Tracking.

(** *** Sea-level pressure *)

Lemma bar_bytes (bar : Z) :
  0 <= bar < 2 ^ 16 ->
  byte.unsigned (byte.of_Z (Z.shiftr bar 8)) = Z.shiftr bar 8
  /\ byte.unsigned (byte.of_Z (Z.land bar 0xFF)) = Z.land bar 0xFF.
Proof.
  intros Hbar. rewrite !byte.unsigned_of_Z. unfold byte.wrap.
  change 0xFF with (Z.ones 8). rewrite Z.land_ones, Z.shiftr_div_pow2 by lia.
  split.
  - apply Z.mod_small. split; [apply Z.div_pos; lia|].
    apply Z.div_lt_upper_bound; lia.
  - apply Z.mod_mod. lia.
Qed.


(** *** Where a transport error can come from *)

Lemma never_fails_ret {A} (a : A) : never_fails (ret a).
Proof. intros s e. discriminate. Qed.

Lemma never_fails_spin {A} : never_fails (@spin A).
Proof. intros s e. discriminate. Qed.

Lemma never_fails_bind {A B} (m : M A) (k : A -> M B) :
  never_fails m -> (forall a, never_fails (k a)) -> never_fails (bind m k).
Proof.
  intros Hm Hk s e. unfold bind. specialize (Hm s).
  destruct (m s) as [[a | e' | | ] s1]; cbn in *;
    try discriminate; [apply Hk | now destruct (Hm e')].
Qed.

Lemma never_fails_unchecked {A} (m : M A) : never_fails (unchecked m).
Proof.
  intros s e. unfold unchecked.
  destruct (m s) as [[a | e' | | ] s1]; discriminate.
Qed.

Lemma never_fails_as_condition (m : M bool) : never_fails (as_condition m).
Proof.
  intros s e. unfold as_condition.
  destruct (m s) as [[a | e' | | ] s1]; discriminate.
Qed.

Lemma never_fails_wait fuel : never_fails (wait_data_ready fuel).
Proof.
  induction fuel as [| fuel IH]; cbn [wait_data_ready].
  - apply never_fails_spin.
  - apply never_fails_bind; [apply never_fails_as_condition|].
    intros [|]; [apply never_fails_ret|].
    apply never_fails_bind; [| intros _; exact IH].
    intros s e. discriminate.
Qed.

Lemma never_fails_p_prepare fuel : never_fails (p_prepare fuel).
Proof.
  unfold p_prepare. apply never_fails_bind; [intros s e; discriminate|].
  intros mode. apply never_fails_bind.
  { destruct (negb _); [apply never_fails_unchecked | apply never_fails_ret]. }
  intros _. apply never_fails_bind; [apply never_fails_unchecked|].
  intros _. apply never_fails_wait.
Qed.

(** X8.  The only transaction whose failure [p_read] returns is the read
    of the output registers, its last one: a failure in the mode switch,
    in the one-shot trigger or in the data-ready loop does not end
    [p_read]. *)
Lemma p_read_failure fuel s e :
  fst (p_read fuel s) = failure e ->
  exists before,
    trace (snd (p_read fuel s)) =
      trace s ++ before ++
      [transaction (bus_write_then_read device_address [OUT_P_MSB_R] 3)
                   (nack e)].
Proof.
  rewrite p_read_split.
  destruct (emits_short_p_prepare fuel s) as [before [E _]].
  pose proof (never_fails_p_prepare fuel s) as Hp.
  unfold bind. destruct (p_prepare fuel s) as [[[] | e' | | ] s1];
    cbn [fst snd] in *; try discriminate.
  - intros Hf. exists before.
    assert (T : transport (trace s1)
                  (bus_write_then_read device_address [OUT_P_MSB_R] 3)
                = nack e).
    { revert Hf. unfold p_fetch, bind, hal_write_then_read, at_index.
      destruct (transport _ _) as [d | e0]; [| now intros [= ->]].
      generalize (fill 3 d) as buffer. intros buffer.
      repeat match goal with
        | |- context [nth_error ?b ?i] => destruct (nth_error b i)
        end; discriminate. }
    now rewrite p_fetch_trace, T, E, <- app_assoc.
  - now destruct (Hp e').
Qed.

(** *** Functions that stop at the first failed transaction *)

Lemma strict_pure {A} (m : M A) :
  (forall s, snd (m s) = s) -> (forall s e, fst (m s) <> failure e) ->
  strict m.
Proof.
  intros Hs Hf s. exists []. rewrite Hs, app_nil_r. split; [reflexivity|].
  specialize (Hf s). destruct (fst (m s)); try constructor.
  now destruct (Hf e).
Qed.

Lemma strict_ret {A} (a : A) : strict (ret a).
Proof. apply strict_pure; [reflexivity | discriminate]. Qed.

Lemma strict_spin {A} : strict (@spin A).
Proof. apply strict_pure; [reflexivity | discriminate]. Qed.

Lemma strict_at_index buffer i : strict (at_index buffer i).
Proof.
  apply strict_pure; intros s; unfold at_index;
    destruct (nth_error buffer i); try reflexivity; discriminate.
Qed.

Lemma strict_hal_delay ms : strict (hal_delay ms).
Proof.
  intros s. exists [delay ms]. split; [reflexivity|]. cbn.
  constructor; [exact I | constructor].
Qed.

Lemma strict_set_sensor_mode mode : strict (set_sensor_mode mode).
Proof.
  intros s. exists []. cbn. rewrite app_nil_r. split; [reflexivity|].
  constructor.
Qed.

Lemma strict_hal_write payload : strict (hal_write payload).
Proof.
  intros s. unfold hal_write.
  destruct (transport _ _) as [d | e]; cbn.
  - eexists [_]. split; [reflexivity|]. constructor; [exact I | constructor].
  - eexists [_]. split; [reflexivity|]. exists []. eexists.
    split; [reflexivity | constructor].
Qed.

Lemma strict_hal_write_then_read payload len :
  strict (hal_write_then_read payload len).
Proof.
  intros s. unfold hal_write_then_read.
  destruct (transport _ _) as [d | e]; cbn.
  - eexists [_]. split; [reflexivity|]. constructor; [exact I | constructor].
  - eexists [_]. split; [reflexivity|]. exists []. eexists.
    split; [reflexivity | constructor].
Qed.

Lemma strict_bind {A B} (m : M A) (k : A -> M B) :
  strict m -> (forall a, strict (k a)) -> strict (bind m k).
Proof.
  intros Hm Hk s. unfold bind. destruct (Hm s) as [suf1 [E1 F1]].
  destruct (m s) as [[a | e | | ] s1]; cbn [fst snd] in *;
    try (exists suf1; now split).
  destruct (Hk a s1) as [suf2 [E2 F2]]. exists (suf1 ++ suf2).
  rewrite E2, E1, app_assoc. split; [reflexivity|].
  destruct (fst (k a s1)); try (apply Forall_app; now split).
  destruct F2 as [before [q [-> F2]]]. exists (suf1 ++ before), q.
  rewrite app_assoc. split; [reflexivity|]. apply Forall_app. now split.
Qed.

Create HintDb strict.
#[local] Hint Resolve strict_ret strict_spin strict_at_index strict_hal_delay
  strict_set_sensor_mode strict_hal_write strict_hal_write_then_read : strict.

Ltac strict_steps :=
  repeat first
    [ apply strict_bind; [| intros ?] | solve [auto with strict] ].

Lemma strict_poll mask fuel : strict (poll_ctrl_reg1 mask fuel).
Proof.
  induction fuel as [| fuel IH]; cbn [poll_ctrl_reg1]; strict_steps.
  destruct (_ =? _); strict_steps.
Qed.

(** X1.  [begin], [set_mode], [initiate_one_shot],
    [check_data_ready_flag], [set_sea_pressure] and [set_altitude_offset]
    wrap each of their transactions in [HAL_CHECK]: in every run of one of
    them no transaction follows a failed one, and the run ends with the
    error of the failed transaction exactly when there is one. *)
Theorem checked_functions_stop_at_first_error
    (fuel : nat) (mode : mpl_mode_t) (sea_level_pressure : Q) (offset : Z) :
  strict (begin fuel)
  /\ strict (set_mode mode)
  /\ strict (initiate_one_shot fuel)
  /\ strict check_data_ready_flag
  /\ strict (set_sea_pressure sea_level_pressure)
  /\ strict (set_altitude_offset offset).
Proof.
  repeat split.
  - unfold begin. strict_steps. destruct (negb _); strict_steps.
    apply strict_poll.
  - unfold set_mode. strict_steps.
  - unfold initiate_one_shot. apply strict_bind; [apply strict_poll|].
    intros c. strict_steps.
  - unfold check_data_ready_flag. strict_steps.
  - unfold set_sea_pressure. strict_steps.
  - unfold set_altitude_offset. strict_steps.
Qed.

(** *** Functions whose indices are in bounds *)

Lemma nu_ret {A} (a : A) : never_undefined (ret a).
Proof. intros s. discriminate. Qed.

Lemma nu_spin {A} : never_undefined (@spin A).
Proof. intros s. discriminate. Qed.

Lemma nu_bind {A B} (m : M A) (k : A -> M B) :
  never_undefined m -> (forall a, never_undefined (k a)) ->
  never_undefined (bind m k).
Proof.
  intros Hm Hk s. unfold bind. specialize (Hm s).
  destruct (m s) as [[a | e | | ] s1]; cbn in *;
    try discriminate; [apply Hk | now destruct Hm].
Qed.

Lemma nu_unchecked {A} (m : M A) :
  never_undefined m -> never_undefined (unchecked m).
Proof.
  intros Hm s. unfold unchecked. specialize (Hm s).
  destruct (m s) as [[a | e | | ] s1]; cbn in *; try discriminate;
    now destruct Hm.
Qed.

Lemma nu_as_condition (m : M bool) :
  never_undefined m -> never_undefined (as_condition m).
Proof.
  intros Hm s. unfold as_condition. specialize (Hm s).
  destruct (m s) as [[a | e | | ] s1]; cbn in *; try discriminate;
    now destruct Hm.
Qed.

Lemma nu_hal_delay ms : never_undefined (hal_delay ms).
Proof. intros s. discriminate. Qed.

Lemma nu_hal_write payload : never_undefined (hal_write payload).
Proof.
  intros s. unfold hal_write. destruct (transport _ _); discriminate.
Qed.

Lemma nu_get_sensor_mode : never_undefined get_sensor_mode.
Proof. intros s. discriminate. Qed.

Lemma nu_set_sensor_mode mode : never_undefined (set_sensor_mode mode).
Proof. intros s. discriminate. Qed.

(** A read into a buffer of [len] bytes, then code that may index it. *)
Lemma nu_read {A} payload len (k : list byte -> M A) :
  (forall buffer, length buffer = len -> never_undefined (k buffer)) ->
  never_undefined (bind (hal_write_then_read payload len) k).
Proof.
  intros Hk s. unfold bind, hal_write_then_read.
  destruct (transport _ _) as [d | e]; [| discriminate].
  apply Hk, fill_length.
Qed.

Lemma nu_index {A} buffer i (k : byte -> M A) :
  (i < length buffer)%nat ->
  (forall b, never_undefined (k b)) ->
  never_undefined (bind (at_index buffer i) k).
Proof.
  intros Hi Hk s. unfold bind, at_index.
  destruct (nth_error buffer i) as [b |] eqn:N; [apply Hk|].
  apply nth_error_None in N. lia.
Qed.

Create HintDb nu.
#[local] Hint Resolve nu_ret nu_spin nu_unchecked nu_as_condition
  nu_hal_delay nu_hal_write nu_get_sensor_mode nu_set_sensor_mode : nu.

Ltac nu_steps :=
  repeat first
    [ apply nu_read; intros ? ?
    | apply nu_index; [lia | intros ?]
    | apply nu_bind; [| intros ?]
    | solve [auto with nu] ].

Lemma nu_poll mask fuel : never_undefined (poll_ctrl_reg1 mask fuel).
Proof.
  induction fuel as [| fuel IH]; cbn [poll_ctrl_reg1]; nu_steps.
  destruct (_ =? _); nu_steps.
Qed.

Lemma nu_initiate_one_shot fuel : never_undefined (initiate_one_shot fuel).
Proof.
  unfold initiate_one_shot. apply nu_bind; [apply nu_poll | nu_steps].
Qed.

Lemma nu_check_data_ready_flag : never_undefined check_data_ready_flag.
Proof. unfold check_data_ready_flag. nu_steps. Qed.

Lemma nu_wait fuel : never_undefined (wait_data_ready fuel).
Proof.
  induction fuel as [| fuel IH]; cbn [wait_data_ready]; [apply nu_spin|].
  apply nu_bind; [apply nu_as_condition, nu_check_data_ready_flag|].
  intros [|]; nu_steps.
Qed.

Lemma nu_set_mode mode : never_undefined (set_mode mode).
Proof. unfold set_mode. nu_steps. Qed.

Lemma nu_prelude {A} required fuel (k : M A) :
  never_undefined k ->
  never_undefined
    (mode <- get_sensor_mode ;;
     (if negb (mode_eqb mode required)
      then unchecked (set_mode required) else ret tt) ;;;
     unchecked (initiate_one_shot fuel) ;;;
     wait_data_ready fuel ;;; k).
Proof.
  intros Hk. apply nu_bind; [apply nu_get_sensor_mode|].
  intros mode. apply nu_bind.
  { destruct (negb _); [apply nu_unchecked, nu_set_mode | apply nu_ret]. }
  intros _. apply nu_bind; [apply nu_unchecked, nu_initiate_one_shot|].
  intros _. apply nu_bind; [apply nu_wait|]. intros _. exact Hk.
Qed.

(** X2.  Every index that [begin], [set_mode], [p_read] and [a_read] use
    is inside its buffer (buffers of 1, 1, 3 and 3 bytes, indices 0, 0,
    0..2 and 0..2), and [set_altitude_offset] indexes nothing: none of
    them ever ends on an access out of bounds, whatever the device
    answers. *)
Theorem other_indices_in_bounds
    (fuel : nat) (mode : mpl_mode_t) (offset : Z) :
  never_undefined (begin fuel)
  /\ never_undefined (set_mode mode)
  /\ never_undefined (p_read fuel)
  /\ never_undefined (a_read fuel)
  /\ never_undefined (set_altitude_offset offset).
Proof.
  repeat split.
  - unfold begin. nu_steps. destruct (negb _); nu_steps. apply nu_poll.
  - apply nu_set_mode.
  - unfold p_read. apply nu_prelude. nu_steps.
  - unfold a_read. apply nu_prelude. nu_steps.
  - unfold set_altitude_offset. nu_steps.
Qed.

(** *** What the driver puts on the bus *)

Ltac expected_steps :=
  repeat first
    [ apply emits_bind; [| intros ?]
    | apply emits_hal_write; intros ?; cbn; solve [auto 10]
    | apply emits_hal_write_then_read; intros ?; cbn; solve [auto 10]
    | apply emits_hal_delay; reflexivity
    | solve [auto with emits] ].

Lemma emits_expected_poll mask fuel : emits expected (poll_ctrl_reg1 mask fuel).
Proof.
  induction fuel as [| fuel IH]; cbn [poll_ctrl_reg1]; [apply emits_spin|].
  expected_steps. destruct (_ =? _); expected_steps.
Qed.

Lemma emits_expected_wait fuel : emits expected (wait_data_ready fuel).
Proof.
  induction fuel as [| fuel IH]; cbn [wait_data_ready]; [apply emits_spin|].
  unfold check_data_ready_flag.
  apply emits_bind; [apply emits_as_condition; expected_steps |].
  intros [|]; expected_steps.
Qed.

Lemma emits_expected_set_mode mode : emits expected (set_mode mode).
Proof. unfold set_mode. expected_steps. Qed.

Lemma emits_expected_initiate_one_shot fuel :
  emits expected (initiate_one_shot fuel).
Proof.
  unfold initiate_one_shot. apply emits_bind; [apply emits_expected_poll|].
  intros c. expected_steps.
Qed.

Lemma emits_expected_prelude {A} required fuel (k : M A) :
  emits expected k ->
  emits expected
    (mode <- get_sensor_mode ;;
     (if negb (mode_eqb mode required)
      then unchecked (set_mode required) else ret tt) ;;;
     unchecked (initiate_one_shot fuel) ;;;
     wait_data_ready fuel ;;; k).
Proof.
  intros Hk. apply emits_bind; [apply emits_get_sensor_mode|].
  intros mode. apply emits_bind.
  { destruct (negb _);
      [apply emits_unchecked, emits_expected_set_mode | apply emits_ret]. }
  intros _. apply emits_bind.
  { apply emits_unchecked, emits_expected_initiate_one_shot. }
  intros _. apply emits_bind; [apply emits_expected_wait|].
  intros _. exact Hk.
Qed.


(** *** The bound on the loops *)

Lemma settles_const {A} (m : M A) : settles (fun _ => m).
Proof. intros n n' s _ _. reflexivity. Qed.

Lemma settles_bind {A B} (f : nat -> M A) (g : nat -> A -> M B) :
  settles f -> (forall a, settles (fun n => g n a)) ->
  settles (fun n => bind (f n) (g n)).
Proof.
  intros Hf Hg n m s Hle. unfold bind. specialize (Hf n m s Hle).
  destruct (f n s) as [[a | e | | ] s1] eqn:E; cbn [fst] in *; intros H.
  - rewrite Hf by discriminate. now apply Hg.
  - now rewrite Hf by discriminate.
  - now rewrite Hf by discriminate.
  - now destruct H.
Qed.

Lemma settles_unchecked {A} (f : nat -> M A) :
  settles f -> settles (fun n => unchecked (f n)).
Proof.
  intros Hf n m s Hle. unfold unchecked. specialize (Hf n m s Hle).
  destruct (f n s) as [[a | e | | ] s1] eqn:E; cbn [fst] in *; intros H;
    try (now rewrite Hf by discriminate).
  now destruct H.
Qed.

Lemma settles_poll mask : settles (poll_ctrl_reg1 mask).
Proof.
  intros n. induction n as [| n IH]; intros m s Hle H.
  - now destruct H.
  - destruct m as [| m]; [lia|]. rewrite !poll_step in *.
    destruct (transport _ _) as [d | e]; [| reflexivity]. cbv zeta in *.
    destruct (nth_error _ _) as [c |]; [| reflexivity].
    destruct (_ =? _); [reflexivity|]. apply IH; [lia | assumption].
Qed.

(** One turn of the data-ready loop. *)
Lemma wait_step fuel s :
  wait_data_ready (S fuel) s =
    match as_condition check_data_ready_flag s with
    | (value true, s1) => (value tt, s1)
    | (value false, s1) => wait_data_ready fuel (record (delay 10) s1)
    | (failure e, s1) => (failure e, s1)
    | (undefined, s1) => (undefined, s1)
    | (out_of_fuel, s1) => (out_of_fuel, s1)
    end.
Proof.
  cbn [wait_data_ready]. unfold bind at 1.
  destruct (as_condition check_data_ready_flag s)
    as [[[|] | e | | ] s1]; reflexivity.
Qed.

Lemma settles_wait : settles wait_data_ready.
Proof.
  intros n. induction n as [| n IH]; intros m s Hle H.
  - now destruct H.
  - destruct m as [| m]; [lia|]. rewrite !wait_step in *.
    destruct (as_condition check_data_ready_flag s)
      as [[[|] | e | | ] s1]; try reflexivity.
    apply IH; [lia | assumption].
Qed.

Lemma settles_initiate_one_shot : settles initiate_one_shot.
Proof.
  unfold initiate_one_shot.
  apply (settles_bind (poll_ctrl_reg1 CTRL_REG1_OST)
           (fun _ c => hal_write [CTRL_REG1; ost_set_reg c])).
  - apply settles_poll.
  - intros c. apply settles_const.
Qed.

Lemma settles_prelude {A} required (k : M A) :
  settles
    (fun fuel =>
       mode <- get_sensor_mode ;;
       (if negb (mode_eqb mode required)
        then unchecked (set_mode required) else ret tt) ;;;
       unchecked (initiate_one_shot fuel) ;;;
       wait_data_ready fuel ;;; k).
Proof.
  apply (settles_bind (fun _ => get_sensor_mode)); [apply settles_const|].
  intros mode.
  apply (settles_bind
           (fun _ => if negb (mode_eqb mode required)
                     then unchecked (set_mode required) else ret tt));
    [apply settles_const|].
  intros _.
  apply (settles_bind (fun fuel => unchecked (initiate_one_shot fuel))).
  { apply settles_unchecked, settles_initiate_one_shot. }
  intros _. apply (settles_bind wait_data_ready); [apply settles_wait|].
  intros _. apply settles_const.
Qed.

(** X4.  The bound that the embedding puts on the polling loops does not
    shape a result: when [begin], [t_read], [p_read] or [a_read] ends
    within a bound (with a value, an error, or undefined), it ends in the
    same way, with the same trace and the same tracked mode, under every
    larger bound. *)
Theorem results_do_not_depend_on_bound :
  settles begin /\ settles t_read /\ settles p_read /\ settles a_read.
Proof.
  repeat split.
  - unfold begin.
    apply (settles_bind (fun _ => hal_write_then_read [WHOAMI_R] 1));
      [apply settles_const|].
    intros whoami_buffer.
    apply (settles_bind (fun _ => at_index whoami_buffer 0));
      [apply settles_const|].
    intros w. destruct (negb _); [apply settles_const|].
    apply (settles_bind (fun _ => hal_write [CTRL_REG1; CTRL_REG1_RST]));
      [apply settles_const|].
    intros _.
    apply (settles_bind (poll_ctrl_reg1 CTRL_REG1_RST));
      [apply settles_poll|].
    intros _. apply settles_const.
  - unfold t_read.
    apply (settles_bind (fun fuel => unchecked (initiate_one_shot fuel))).
    { apply settles_unchecked, settles_initiate_one_shot. }
    intros _. apply (settles_bind wait_data_ready); [apply settles_wait|].
    intros _. apply settles_const.
  - apply settles_prelude.
  - apply settles_prelude.
Qed.

(** *** Reading a run backwards *)

Lemma bind_value {A B} (m : M A) (k : A -> M B) s b s' :
  bind m k s = (value b, s') ->
  exists a s1, m s = (value a, s1) /\ k a s1 = (value b, s').
Proof.
  unfold bind. destruct (m s) as [[a | e | | ] s1]; try discriminate.
  intros H. now exists a, s1.
Qed.

Lemma hal_write_value payload s u s' :
  hal_write payload s = (value u, s') ->
  exists d,
    s' = record (transaction (bus_write device_address payload) (ack d)) s.
Proof.
  unfold hal_write. destruct (transport _ _) as [d | e]; [| discriminate].
  intros [= _ <-]. now exists d.
Qed.

Lemma hal_write_then_read_value payload len s buffer s' :
  hal_write_then_read payload len s = (value buffer, s') ->
  exists d,
    buffer = fill len d /\
    s' = record (transaction
                   (bus_write_then_read device_address payload len) (ack d))
                s.
Proof.
  unfold hal_write_then_read.
  destruct (transport _ _) as [d | e]; [| discriminate].
  intros [= <- <-]. now exists d.
Qed.

Lemma at_index_value buffer i s b s' :
  at_index buffer i s = (value b, s') ->
  nth_error buffer i = Some b /\ s' = s.
Proof.
  unfold at_index. destruct (nth_error buffer i); [| discriminate].
  now intros [= <- <-].
Qed.

(** When a polling loop ends with a value, that value is the byte of its
    last read and has the bit clear; before that, the loop only saw the
    bit set and waited. *)
Lemma poll_value mask fuel : forall s c s',
  poll_ctrl_reg1 mask fuel s = (value c, s') ->
  sensor_mode s' = sensor_mode s /\
  band c mask = 0 /\
  exists before d,
    Forall (pending mask) before /\
    nth_error (fill 1 d) 0 = Some c /\
    trace s' =
      trace s ++ before ++
      [transaction (bus_write_then_read device_address [CTRL_REG1] 1)
                   (ack d)].
Proof.
  induction fuel as [| fuel IH]; intros s c s'; [discriminate|].
  rewrite poll_step.
  destruct (transport (trace s) _) as [d | e]; [| discriminate]. cbv zeta.
  destruct (nth_error (fill 1 d) 0) as [c0 |] eqn:N; [| discriminate].
  destruct (Z.eqb_spec (band c0 mask) 0) as [Hz | Hnz].
  - intros [= <- <-]. split; [reflexivity|]. split; [assumption|].
    exists [], d. repeat split; [constructor | assumption].
  - intros H. apply IH in H. destruct H as [Hm [Hc [before [d' [F [N' T]]]]]].
    split; [exact Hm|]. split; [exact Hc|].
    exists ([transaction (bus_write_then_read device_address [CTRL_REG1] 1)
               (ack d); delay 10] ++ before), d'.
    split; [| split; [exact N'|]].
    + constructor; [| constructor; [reflexivity | exact F]].
      cbn. repeat split. now exists c0.
    + rewrite T. cbn [record trace]. now rewrite <- !app_assoc.
Qed.

(** X5.  When [initiate_one_shot] succeeds, the last two events of its run
    are a read of control register 1 that shows the one-shot bit
    ([CTRL_REG1_OST]) clear and the acknowledged write of that byte with
    bit 1 set; everything before is reads that show the bit set and waits
    of 10 ms.  The trigger is never written while a one-shot is read as
    pending, and the tracked mode is left alone. *)
Theorem initiate_one_shot_waits_for_clear
    (fuel : nat) (s : mpl311 errc) :
  fst (initiate_one_shot fuel s) = value tt ->
  sensor_mode (snd (initiate_one_shot fuel s)) = sensor_mode s /\
  exists before d c w,
    Forall (pending CTRL_REG1_OST) before /\
    nth_error (fill 1 d) 0 = Some c /\
    band c CTRL_REG1_OST = 0 /\
    trace (snd (initiate_one_shot fuel s)) =
      trace s ++ before ++
      [transaction (bus_write_then_read device_address [CTRL_REG1] 1)
                   (ack d);
       transaction (bus_write device_address [CTRL_REG1; ost_set_reg c])
                   (ack w)].
Proof.
  destruct (initiate_one_shot fuel s) as [o s'] eqn:E. cbn [fst snd].
  intros ->. unfold initiate_one_shot in E.
  apply bind_value in E. destruct E as [c [s1 [Hp Hw]]].
  apply poll_value in Hp. destruct Hp as [Hm [Hc [before [d [F [N T]]]]]].
  apply hal_write_value in Hw. destruct Hw as [w ->].
  split; [exact Hm|]. exists before, d, c, w.
  repeat split; try assumption.
  cbn [record trace]. now rewrite T, <- !app_assoc.
Qed.

(** A [begin] that returns [true] has set the tracked mode. *)
Lemma begin_true_mode (fuel : nat) (s : mpl311 errc) :
  fst (begin fuel s) = value true ->
  sensor_mode (snd (begin fuel s)) = ALTIMETER_M.
Proof.
  destruct (begin fuel s) as [o s'] eqn:E. cbn [fst snd].
  intros ->. unfold begin in E.
  apply bind_value in E. destruct E as [buffer [s1 [_ E]]].
  apply bind_value in E. destruct E as [w [s2 [_ E]]].
  destruct (negb _); [discriminate|].
  apply bind_value in E. destruct E as [[] [s3 [_ E]]].
  apply bind_value in E. destruct E as [c [s4 [_ E]]].
  apply bind_value in E. destruct E as [[] [s5 [H5 E]]].
  injection H5 as <-.
  apply bind_value in E. destruct E as [[] [s6 [H6 E]]].
  apply hal_write_value in H6. destruct H6 as [w2 ->].
  apply bind_value in E. destruct E as [[] [s7 [H7 E]]].
  apply hal_write_value in H7. destruct H7 as [w3 ->].
  now injection E as <-.
Qed.

(** X6.  When [begin] returns [true], its run is: the identity read,
    answered 0xC4; the acknowledged write of the reset bit; reads of
    control register 1 that show the reset bit set, with waits of 10 ms;
    one read that shows it clear; the acknowledged write of
    [CTRL_REG1_OS128 | CTRL_REG1_ALT] to control register 1; the
    acknowledged write of the three data-ready bits to [PT_DATA_CFG_R].
    The tracked mode is then [ALTIMETER_M]. *)
Theorem begin_true_handshake (fuel : nat) (s : mpl311 errc) :
  fst (begin fuel s) = value true ->
  sensor_mode (snd (begin fuel s)) = ALTIMETER_M /\
  exists id w polls d c w1 w2 w3,
    nth_error (fill 1 id) 0 = Some w /\ byte.unsigned w = 0xC4 /\
    Forall (pending CTRL_REG1_RST) polls /\
    nth_error (fill 1 d) 0 = Some c /\ band c CTRL_REG1_RST = 0 /\
    trace (snd (begin fuel s)) =
      trace s ++
      [transaction (bus_write_then_read device_address [WHOAMI_R] 1)
                   (ack id);
       transaction (bus_write device_address [CTRL_REG1; CTRL_REG1_RST])
                   (ack w1)] ++
      polls ++
      [transaction (bus_write_then_read device_address [CTRL_REG1] 1)
                   (ack d);
       transaction
         (bus_write device_address
            [CTRL_REG1; bor CTRL_REG1_OS128 CTRL_REG1_ALT]) (ack w2);
       transaction
         (bus_write device_address
            [PT_DATA_CFG_R;
             bor (bor PT_DATA_CFG_TDEFE PT_DATA_CFG_PDEFE) PT_DATA_CFG_DREM])
         (ack w3)].
Proof.
  destruct (begin fuel s) as [o s'] eqn:E. cbn [fst snd].
  intros ->. unfold begin in E.
  apply bind_value in E. destruct E as [buffer [s1 [H1 E]]].
  apply hal_write_then_read_value in H1. destruct H1 as [id [-> ->]].
  apply bind_value in E. destruct E as [w [s2 [H2 E]]].
  apply at_index_value in H2. destruct H2 as [Nw ->].
  destruct (Z.eqb_spec (byte.unsigned w) 196) as [Hw | Hw];
    cbn [negb] in E; [| discriminate].
  apply bind_value in E. destruct E as [[] [s3 [H3 E]]].
  apply hal_write_value in H3. destruct H3 as [w1 ->].
  apply bind_value in E. destruct E as [c [s4 [H4 E]]].
  apply poll_value in H4. destruct H4 as [_ [Hc [polls [d [F [Nc T]]]]]].
  apply bind_value in E. destruct E as [[] [s5 [H5 E]]].
  injection H5 as <-.
  apply bind_value in E. destruct E as [[] [s6 [H6 E]]].
  apply hal_write_value in H6. destruct H6 as [w2 ->].
  apply bind_value in E. destruct E as [[] [s7 [H7 E]]].
  apply hal_write_value in H7. destruct H7 as [w3 ->].
  injection E as <-. split; [reflexivity|].
  exists id, w, polls, d, c, w1, w2, w3. repeat split; try assumption.
  cbn [record trace] in *. rewrite T. now rewrite <- !app_assoc.
Qed.

(** X7.  [begin] returns [false] only for an identity byte other than
    0xC4: the identity transaction is then all it did, and the tracked
    mode is untouched. *)
Theorem begin_false_only_on_mismatch (fuel : nat) (s : mpl311 errc) :
  fst (begin fuel s) = value false ->
  exists id w,
    nth_error (fill 1 id) 0 = Some w /\ byte.unsigned w <> 0xC4 /\
    snd (begin fuel s) =
      record (transaction (bus_write_then_read device_address [WHOAMI_R] 1)
                          (ack id)) s.
Proof.
  destruct (begin fuel s) as [o s'] eqn:E. cbn [fst snd].
  intros ->. unfold begin in E.
  apply bind_value in E. destruct E as [buffer [s1 [H1 E]]].
  apply hal_write_then_read_value in H1. destruct H1 as [id [-> ->]].
  apply bind_value in E. destruct E as [w [s2 [H2 E]]].
  apply at_index_value in H2. destruct H2 as [Nw ->].
  destruct (Z.eqb_spec (byte.unsigned w) 196) as [Hw | Hw]; cbn [negb] in E.
  - exfalso.
    repeat (apply bind_value in E; destruct E as [? [? [_ E]]]).
    discriminate.
  - injection E as <-. now exists id, w.
Qed.

(** *** Where the reads can fail *)

Lemma fails_at_bind {A B} q (m : M A) (k : A -> M B) :
  never_fails m -> (forall a, fails_at q (k a)) -> fails_at q (bind m k).
Proof.
  intros Hm Hk s e. unfold bind. specialize (Hm s).
  destruct (m s) as [[a | e' | | ] s1]; cbn [fst snd] in *;
    try discriminate; [apply Hk | now destruct (Hm e')].
Qed.

(** The last statements of a read: the output transaction, then indexing
    and arithmetic. *)
Lemma fails_at_fetch {A} payload len (k : list byte -> M A) :
  (forall buffer, never_fails (k buffer)) ->
  fails_at (bus_write_then_read device_address payload len)
           (bind (hal_write_then_read payload len) k).
Proof.
  intros Hk s e. unfold bind, hal_write_then_read.
  destruct (transport _ _) as [d | e0]; cbn [fst snd].
  - intros H. now destruct (Hk _ _ _ H).
  - intros [= ->]. now exists (trace s).
Qed.

Lemma never_fails_at_index buffer i : never_fails (at_index buffer i).
Proof.
  intros s e. unfold at_index. destruct (nth_error buffer i); discriminate.
Qed.

Lemma never_fails_get_sensor_mode : never_fails get_sensor_mode.
Proof. intros s e. discriminate. Qed.

Lemma fails_at_prelude {A} q required fuel (k : M A) :
  fails_at q k ->
  fails_at q
    (mode <- get_sensor_mode ;;
     (if negb (mode_eqb mode required)
      then unchecked (set_mode required) else ret tt) ;;;
     unchecked (initiate_one_shot fuel) ;;;
     wait_data_ready fuel ;;; k).
Proof.
  intros Hk. apply fails_at_bind; [apply never_fails_get_sensor_mode|].
  intros mode. apply fails_at_bind.
  { destruct (negb _); [apply never_fails_unchecked | apply never_fails_ret]. }
  intros _. apply fails_at_bind; [apply never_fails_unchecked|].
  intros _. apply fails_at_bind; [apply never_fails_wait|].
  intros _. exact Hk.
Qed.

(** X9.  [t_read] and [a_read] call the mode switch, the one-shot trigger
    and the data-ready test without [HAL_CHECK]: the only transaction
    whose failure they return is their last one, the read of the output
    registers.  A transport error anywhere before does not end them. *)
Theorem t_read_a_read_fail_only_at_fetch (fuel : nat) :
  fails_at (bus_write_then_read device_address [OUT_T_MSB_R] 2)
           (t_read fuel)
  /\ fails_at (bus_write_then_read device_address [OUT_P_MSB_R] 3)
              (a_read fuel).
Proof.
  split.
  - unfold t_read. apply fails_at_bind; [apply never_fails_unchecked|].
    intros _. apply fails_at_bind; [apply never_fails_wait|].
    intros _. apply fails_at_fetch. intros buffer.
    repeat (apply never_fails_bind; [apply never_fails_at_index | intros ?]).
    apply never_fails_ret.
  - unfold a_read. apply fails_at_prelude. apply fails_at_fetch.
    intros buffer.
    repeat (apply never_fails_bind; [apply never_fails_at_index | intros ?]).
    apply never_fails_ret.
Qed.

(** *** The two register updates *)

(** X10.  The byte that [set_mode] computes is a fixed point of the
    update: computing it again for the same mode changes nothing; a byte
    whose bit 7 already says the mode is written back as read; and going
    to the other mode and back gives the byte of going there directly. *)
Theorem mode_set_reg_settles (mode other : mpl_mode_t) (c : byte) :
  mode_set_reg mode (mode_set_reg mode c) = mode_set_reg mode c
  /\ (mode_bit c = mode_eqb mode ALTIMETER_M -> mode_set_reg mode c = c)
  /\ mode_set_reg mode (mode_set_reg other c) = mode_set_reg mode c.
Proof.
  repeat split.
  - destruct mode, c; reflexivity.
  - destruct mode, c; cbn; intros H; try reflexivity; discriminate H.
  - destruct mode, other, c; reflexivity.
Qed.

Lemma ost_set_reg_unsigned (c : byte) :
  byte.unsigned (ost_set_reg c) = Z.lor (byte.unsigned c) (2 ^ 1).
Proof. destruct c; reflexivity. Qed.

(** X11.  The byte that [initiate_one_shot] writes has bit 1 set and
    agrees with the byte read on every other bit; setting the bit again
    changes nothing. *)
Theorem ost_set_reg_sets_only_bit_1 (c : byte) :
  Z.testbit (byte.unsigned (ost_set_reg c)) 1 = true
  /\ (forall i, i <> 1 ->
        Z.testbit (byte.unsigned (ost_set_reg c)) i
          = Z.testbit (byte.unsigned c) i)
  /\ ost_set_reg (ost_set_reg c) = ost_set_reg c.
Proof.
  repeat split.
  - rewrite ost_set_reg_unsigned, Z.lor_spec, Z.pow2_bits_true by lia.
    apply orb_true_r.
  - intros i Hi.
    rewrite ost_set_reg_unsigned, Z.lor_spec, Z.pow2_bits_false by lia.
    apply orb_false_r.
  - destruct c; reflexivity.
Qed.

(** *** Altitude reads *)

Lemma a_read_split fuel s :
  a_read fuel s = bind (a_prepare fuel) (fun _ => a_fetch) s.
Proof. unfold a_read, a_prepare. regroup. Qed.

Lemma emits_short_a_prepare fuel : emits short (a_prepare fuel).
Proof.
  unfold a_prepare. apply emits_bind; [apply emits_get_sensor_mode|].
  intros mode. apply emits_bind.
  { destruct (negb _); auto using emits_unchecked, emits_short_set_mode,
      emits_ret. }
  intros _. apply emits_bind.
  { apply emits_unchecked, emits_short_initiate_one_shot. }
  intros _. apply emits_short_wait.
Qed.

Lemma a_fetch_trace s :
  trace (snd (a_fetch s)) =
    trace s ++
    [transaction (bus_write_then_read device_address [OUT_P_MSB_R] 3)
       (transport (trace s)
          (bus_write_then_read device_address [OUT_P_MSB_R] 3))].
Proof.
  unfold a_fetch, bind, hal_write_then_read, at_index.
  destruct (transport _ _) as [d | e]; [| reflexivity].
  generalize (fill 3 d) as buffer. intros buffer.
  repeat match goal with
    | |- context [nth_error ?b ?i] => destruct (nth_error b i)
    end; reflexivity.
Qed.

Lemma a_fetch_value s msb csb lsb :
  transport (trace s) (bus_write_then_read device_address [OUT_P_MSB_R] 3)
    = ack [msb; csb; lsb] ->
  fst (a_fetch s) =
    value {| altitude := inject_Z (alt_reading msb csb lsb) / 65536 |}.
Proof.
  intros H. unfold a_fetch, bind, hal_write_then_read. now rewrite H.
Qed.

Lemma alt_reading_packed (msb csb lsb : byte) :
  alt_reading msb csb lsb =
    Z.lor (Z.lor (Z.shiftl (byte.unsigned msb) 24)
                 (Z.shiftl (byte.unsigned csb) 16))
          (Z.shiftl (byte.unsigned lsb) 8).
Proof.
  unfold alt_reading. now rewrite !to_uint32_shiftl_byte by lia.
Qed.

Lemma alt_reading_scaled (msb csb lsb : byte) :
  alt_reading msb csb lsb = 256 * pressure_reading msb csb lsb.
Proof.
  rewrite alt_reading_packed, pressure_reading_packed.
  rewrite Z.mul_comm. change 256 with (2 ^ 8).
  rewrite <- Z.shiftl_mul_pow2, !Z.shiftl_lor, !Z.shiftl_shiftl by lia.
  reflexivity.
Qed.

(** X12.  In every run of [a_read] that ends with the output-register
    transaction answered by the bytes [msb], [csb], [lsb], the result is
    the number [(msb << 24) | (csb << 16) | (lsb << 8)], taken without
    sign, divided by 65536: the 24-bit number that [p_read] would make of
    the same bytes, divided by 256.  For 0x00, 0x01, 0x00 that is 1 m. *)
Theorem a_read_conversion
    (fuel : nat) (s : mpl311 errc) (before : list (event errc))
    (msb csb lsb : byte) :
  trace (snd (a_read fuel s)) =
    trace s ++ before ++
    [transaction (bus_write_then_read device_address [OUT_P_MSB_R] 3)
                 (ack [msb; csb; lsb])] ->
  exists r : altitude_read_t,
    fst (a_read fuel s) = value r
    /\ altitude r =
         (inject_Z (Z.lor (Z.lor (Z.shiftl (byte.unsigned msb) 24)
                                 (Z.shiftl (byte.unsigned csb) 16))
                          (Z.shiftl (byte.unsigned lsb) 8)) / 65536)%Q
    /\ (altitude r == inject_Z (pressure_reading msb csb lsb) / 256)%Q
    /\ (msb = Byte.x00 -> csb = Byte.x01 -> lsb = Byte.x00 ->
        (altitude r == 1)%Q).
Proof.
  rewrite a_read_split. intros H.
  destruct (emits_short_a_prepare fuel s) as [suf [E F]].
  unfold bind in *.
  destruct (a_prepare fuel s) as [[[] | e | | ] s1]; cbn [fst snd] in *.
  - rewrite a_fetch_trace, E, <- app_assoc in H.
    apply app_inv_head in H.
    apply app_inj_tail in H. destruct H as [_ H].
    injection H as H. rewrite <- E in H. rewrite (a_fetch_value _ _ _ _ H).
    eexists. split; [reflexivity|]. cbn [altitude].
    split; [now rewrite alt_reading_packed|]. split.
    + rewrite alt_reading_scaled.
      generalize (pressure_reading msb csb lsb) as z. intros z.
      unfold Qeq, Qdiv, Qmult, Qinv, inject_Z. cbn -[Z.mul]. lia.
    + intros -> -> ->. reflexivity.
  - exfalso. rewrite E in H. apply app_inv_head in H. subst suf.
    apply Forall_app in F. destruct F as [_ F]. inversion F as [| ? ? F1 _].
    discriminate F1.
  - exfalso. rewrite E in H. apply app_inv_head in H. subst suf.
    apply Forall_app in F. destruct F as [_ F]. inversion F as [| ? ? F1 _].
    discriminate F1.
  - exfalso. rewrite E in H. apply app_inv_head in H. subst suf.
    apply Forall_app in F. destruct F as [_ F]. inversion F as [| ? ? F1 _].
    discriminate F1.
Qed.

Lemma keeps_mode_a_measure fuel : keeps_mode (a_measure fuel).
Proof.
  unfold a_measure, a_fetch.
  apply keeps_mode_bind; [apply keeps_mode_wait | intros _; keeps_steps].
Qed.

Lemma emits_quiet_a_measure fuel : emits quiet (a_measure fuel).
Proof.
  unfold a_measure, a_fetch.
  apply emits_bind; [apply emits_quiet_wait | intros _; emits_steps].
Qed.

Lemma a_read_altimeter fuel s :
  sensor_mode s = ALTIMETER_M ->
  a_read fuel s =
    bind (unchecked (initiate_one_shot fuel)) (fun _ => a_measure fuel) s.
Proof.
  intros Hm. unfold a_read. unfold bind at 1. cbn [get_sensor_mode].
  rewrite Hm. cbn [mode_eqb negb]. unfold bind at 1. reflexivity.
Qed.

(** X13.  A call of [a_read] that finds the tracked mode at [ALTIMETER_M]
    leaves it there and makes no mode write: its only plain write, if
    any, is the one-shot trigger of the byte it has just read back.  So
    it is for the first altitude read after a [begin] that returned
    [true]. *)
Theorem a_read_skips_mode_write (fuel : nat) (s : mpl311 errc) (n : nat) :
  (sensor_mode s = ALTIMETER_M ->
   sensor_mode (snd (a_read fuel s)) = ALTIMETER_M
   /\ one_shot_only (trace s) (trace (snd (a_read fuel s))))
  /\ (fst (begin n s) = value true ->
      sensor_mode (snd (a_read fuel (snd (begin n s)))) = ALTIMETER_M
      /\ one_shot_only (trace (snd (begin n s)))
                       (trace (snd (a_read fuel (snd (begin n s)))))).
Proof.
  assert (H : forall s0, sensor_mode s0 = ALTIMETER_M ->
            sensor_mode (snd (a_read fuel s0)) = ALTIMETER_M
            /\ one_shot_only (trace s0) (trace (snd (a_read fuel s0)))).
  { intros s0 Hm. rewrite (a_read_altimeter fuel s0 Hm). split.
    - rewrite <- Hm. apply keeps_mode_bind.
      + apply keeps_mode_unchecked, keeps_mode_initiate_one_shot.
      + intros _. apply keeps_mode_a_measure.
    - destruct (unchecked_then_state (initiate_one_shot fuel)
                  (fun _ => a_measure fuel) s0 (emits_quiet_a_measure fuel))
        as [after [Fa Ha]].
      destruct (initiate_one_shot_shape fuel s0) as [before [Fb Hb]].
      exists before, after. repeat split; try assumption.
      rewrite Ha. destruct Hb as [Hb | [d [c [w [N Hb]]]]].
      + left. now rewrite Hb, <- app_assoc.
      + right. exists d, c, w. split; [assumption|].
        rewrite Hb, <- !app_assoc. reflexivity. }
  split; [apply H|]. intros Hb. apply H.
  now apply begin_true_mode.
Qed.

(** *** The tracked mode after a read *)

Lemma mode_eqb_eq a b : mode_eqb a b = true -> a = b.
Proof. destruct a, b; (reflexivity || discriminate). Qed.

(** [set_mode] sets the tracked mode when it succeeds and leaves it when
    it fails; it has no other way to end. *)
Lemma set_mode_ends mode s :
  match fst (set_mode mode s) with
  | value _ => sensor_mode (snd (set_mode mode s)) = mode
  | failure _ => sensor_mode (snd (set_mode mode s)) = sensor_mode s
  | _ => False
  end.
Proof.
  pose proof (nu_set_mode mode s) as Hu. revert Hu.
  unfold set_mode, bind, hal_write_then_read.
  destruct (transport _ _) as [d | e]; cbn [fst snd]; [| reflexivity].
  unfold at_index. destruct (nth_error _ _) as [c |]; cbn [fst snd].
  - unfold hal_write. destruct (transport _ _); reflexivity.
  - intros Hu. now destruct Hu.
Qed.

Lemma prelude_mode {A} required fuel (k : M A) s :
  keeps_mode k ->
  sensor_mode
    (snd ((mode <- get_sensor_mode ;;
           (if negb (mode_eqb mode required)
            then unchecked (set_mode required) else ret tt) ;;;
           unchecked (initiate_one_shot fuel) ;;;
           wait_data_ready fuel ;;; k) s)) = required
  \/ (sensor_mode
        (snd ((mode <- get_sensor_mode ;;
               (if negb (mode_eqb mode required)
                then unchecked (set_mode required) else ret tt) ;;;
               unchecked (initiate_one_shot fuel) ;;;
               wait_data_ready fuel ;;; k) s)) = sensor_mode s
      /\ exists e, fst (set_mode required s) = failure e).
Proof.
  intros Hk.
  assert (Hrest : keeps_mode
            (unchecked (initiate_one_shot fuel) ;;;
             wait_data_ready fuel ;;; k)).
  { apply keeps_mode_bind.
    - apply keeps_mode_unchecked, keeps_mode_initiate_one_shot.
    - intros _. apply keeps_mode_bind; [apply keeps_mode_wait|].
      intros _. exact Hk. }
  set (rest := (unchecked (initiate_one_shot fuel) ;;;
                wait_data_ready fuel ;;; k)) in *.
  match goal with
  | |- sensor_mode (snd ?run) = _ \/ _ =>
      assert (E : run =
                  bind (if negb (mode_eqb (sensor_mode s) required)
                        then unchecked (set_mode required) else ret tt)
                       (fun _ => rest) s) by reflexivity
  end.
  rewrite E. clear E.
  destruct (mode_eqb (sensor_mode s) required) eqn:Hm; cbn [negb].
  - left. apply mode_eqb_eq in Hm.
    change (sensor_mode (snd (rest s)) = required). now rewrite Hrest.
  - pose proof (set_mode_ends required s) as He.
    unfold bind, unchecked.
    destruct (set_mode required s) as [[[] | e | | ] s1];
      cbn [fst snd] in *; try contradiction.
    + left. now rewrite Hrest.
    + right. rewrite Hrest. split; [exact He | now exists e].
Qed.

(** X14.  After [p_read] the tracked mode is [BAROMETER_M], and after
    [a_read] it is [ALTIMETER_M], whatever else happened in the call,
    with one exception: the mode switch was needed and a transaction of
    [set_mode] failed.  Then the read goes on all the same, and the
    tracked mode is as before the call.  [t_read] leaves the tracked mode
    as it is. *)
Theorem tracked_mode_after_read (fuel : nat) (s : mpl311 errc) :
  (sensor_mode (snd (p_read fuel s)) = BAROMETER_M
   \/ (sensor_mode (snd (p_read fuel s)) = sensor_mode s
       /\ exists e, fst (set_mode BAROMETER_M s) = failure e))
  /\ (sensor_mode (snd (a_read fuel s)) = ALTIMETER_M
      \/ (sensor_mode (snd (a_read fuel s)) = sensor_mode s
          /\ exists e, fst (set_mode ALTIMETER_M s) = failure e))
  /\ sensor_mode (snd (t_read fuel s)) = sensor_mode s.
Proof.
  split; [| split].
  - apply prelude_mode. keeps_steps.
  - apply prelude_mode. keeps_steps.
  - apply keeps_mode_bind.
    + apply keeps_mode_unchecked, keeps_mode_initiate_one_shot.
    + intros _. apply keeps_mode_bind; [apply keeps_mode_wait|].
      intros _. keeps_steps.
Qed.

(** *** The calibration setters *)

Lemma to_int8_of_Z (offset : Z) :
  -128 <= offset <= 127 ->
  to_int8 (byte.unsigned (byte.of_Z offset)) = offset.
Proof.
  intros H. rewrite byte.unsigned_of_Z. unfold byte.wrap, to_int8.
  rewrite Z.mod_mod by lia. change (2 ^ 8) with 256. change (2 ^ 7) with 128.
  destruct (Z.ltb_spec (offset mod 256) 128) as [Hlt | Hge];
    Z.div_mod_to_equations; lia.
Qed.

(** X15.  For an offset in the range of [int8_t], [set_altitude_offset]
    makes one bus transaction, the write of [OFF_H_R] and one byte, and
    that byte read in two's complement is the offset: nothing is lost on
    the way to the register.  For -5 the byte is 0xFB. *)
Theorem set_altitude_offset_round_trip (offset : Z) (s : mpl311 errc) :
  -128 <= offset <= 127 ->
  exists (b : byte) (w : reply errc),
    trace (snd (set_altitude_offset offset s)) =
      trace s ++ [transaction (bus_write device_address [OFF_H_R; b]) w]
    /\ to_int8 (byte.unsigned b) = offset
    /\ (offset = -5 -> b = Byte.xfb).
Proof.
  intros H. exists (byte.of_Z offset).
  exists (transport (trace s)
            (bus_write device_address [OFF_H_R; byte.of_Z offset])).
  split; [| split].
  - unfold set_altitude_offset, hal_write. now destruct (transport _ _).
  - now apply to_int8_of_Z.
  - intros ->. reflexivity.
Qed.

Lemma truncate_half (x : Q) :
  (0 <= x)%Q ->
  (inject_Z (2 * truncate (x / 2)) <= x)%Q
  /\ (x < inject_Z (2 * truncate (x / 2) + 2))%Q
  /\ 0 <= truncate (x / 2)%Q.
Proof.
  destruct x as [n d]. unfold Qle, Qlt, truncate, Qdiv, Qmult, Qinv, inject_Z.
  cbn [Qnum Qden]. rewrite !Z.mul_1_r. intros Hn.
  change (Z.pos (d * 2)) with (Z.pos d * 2).
  assert (Hd : 0 < Z.pos d * 2) by lia.
  rewrite Z.quot_div_nonneg by lia.
  pose proof (Z.div_mod n (Z.pos d * 2) ltac:(lia)) as E.
  pose proof (Z.mod_pos_bound n (Z.pos d * 2) Hd) as B.
  pose proof (Z.div_pos n (Z.pos d * 2) ltac:(lia) Hd) as P.
  repeat split; nia.
Qed.

(** X16.  For a pressure from 0 up to, but not including, 131072 Pa,
    [set_sea_pressure] makes one write of [BAR_IN_MSB_R] and two bytes,
    high byte first, and the 16-bit number in them, counted in units of
    2 Pa, is the pressure rounded down: it is at most the input and less
    than 2 Pa below it. *)
Theorem set_sea_pressure_rounds_down (x : Q) (s : mpl311 errc) :
  (0 <= x)%Q -> (x < 131072)%Q ->
  exists (msb lsb : byte) (w : reply errc),
    trace (snd (set_sea_pressure x s)) =
      trace s ++
      [transaction (bus_write device_address [BAR_IN_MSB_R; msb; lsb]) w]
    /\ (inject_Z (2 * (256 * byte.unsigned msb + byte.unsigned lsb)) <= x)%Q
    /\ (x < inject_Z (2 * (256 * byte.unsigned msb + byte.unsigned lsb) + 2))%Q.
Proof.
  intros H0 H1. destruct (truncate_half x H0) as [Hlo [Hhi Hpos]].
  set (bar := truncate (x / 2)%Q) in *.
  assert (Hbar : 0 <= bar < 2 ^ 16).
  { split; [assumption|].
    assert (L : (inject_Z (2 * bar) < 131072)%Q)
      by (eapply Qle_lt_trans; eassumption).
    unfold Qlt, inject_Z in L. cbn [Qnum Qden] in L.
    change (2 ^ 16) with 65536. lia. }
  destruct (bar_bytes bar Hbar) as [Hm Hl].
  exists (byte.of_Z (Z.shiftr bar 8)), (byte.of_Z (Z.land bar 0xFF)).
  exists (transport (trace s)
            (bus_write device_address
               [BAR_IN_MSB_R; byte.of_Z (Z.shiftr bar 8);
                byte.of_Z (Z.land bar 0xFF)])).
  assert (E : 256 * byte.unsigned (byte.of_Z (Z.shiftr bar 8))
              + byte.unsigned (byte.of_Z (Z.land bar 0xFF)) = bar).
  { rewrite Hm, Hl. change 0xFF with (Z.ones 8).
    rewrite Z.land_ones, Z.shiftr_div_pow2 by lia.
    change (2 ^ 8) with 256. pose proof (Z.div_mod bar 256). lia. }
  rewrite E. split; [| now split].
  unfold set_sea_pressure, bar_of, to_uint16. fold bar.
  rewrite (Z.mod_small bar (2 ^ 16)) by exact Hbar.
  unfold hal_write. now destruct (transport _ _).
Qed.

(** *** The data-ready loop *)

Lemma check_step s :
  as_condition check_data_ready_flag s =
    match transport (trace s)
            (bus_write_then_read device_address [STATUS_R] 1) with
    | ack d =>
        match nth_error (fill 1 d) 0 with
        | Some st =>
            (value (negb (band st STATUS_PTDR =? 0)),
             record (transaction
                       (bus_write_then_read device_address [STATUS_R] 1)
                       (ack d)) s)
        | None =>
            (undefined,
             record (transaction
                       (bus_write_then_read device_address [STATUS_R] 1)
                       (ack d)) s)
        end
    | nack e =>
        (value (error_flag e),
         record (transaction
                   (bus_write_then_read device_address [STATUS_R] 1)
                   (nack e)) s)
    end.
Proof.
  unfold as_condition, check_data_ready_flag, bind, hal_write_then_read,
    at_index.
  destruct (transport _ _) as [d | e]; [| reflexivity].
  destruct (nth_error _ _); reflexivity.
Qed.

Lemma wait_value fuel : forall s u s',
  wait_data_ready fuel s = (value u, s') ->
  exists before r,
    ready r /\
    trace s' =
      trace s ++ before ++
      [transaction (bus_write_then_read device_address [STATUS_R] 1) r].
Proof.
  induction fuel as [| fuel IH]; intros s u s'; [discriminate|].
  rewrite wait_step, check_step.
  assert (Hloop : forall ev,
            wait_data_ready fuel (record (delay 10) (record ev s))
              = (value u, s') ->
            exists before r,
              ready r /\
              trace s' =
                trace s ++ before ++
                [transaction
                   (bus_write_then_read device_address [STATUS_R] 1) r]).
  { intros ev H. apply IH in H. destruct H as [before [r [Hr T]]].
    exists ([ev; delay 10] ++ before), r. split; [exact Hr|].
    rewrite T. cbn [record trace]. now rewrite <- !app_assoc. }
  destruct (transport (trace s) _) as [d | e] eqn:T.
  - destruct (nth_error (fill 1 d) 0) as [st |] eqn:N; [| discriminate].
    destruct (Z.eqb_spec (band st STATUS_PTDR) 0) as [Hz | Hnz]; cbn [negb].
    + apply Hloop.
    + intros [= _ <-]. exists [], (ack d). split; [| reflexivity].
      now exists st.
  - destruct (error_flag e) eqn:Hf.
    + intros [= _ <-]. exists [], (nack e). split; [exact Hf | reflexivity].
    + apply Hloop.
Qed.

Lemma emits_any_unchecked_part required fuel :
  emits short
    (mode <- get_sensor_mode ;;
     (if negb (mode_eqb mode required)
      then unchecked (set_mode required) else ret tt) ;;;
     unchecked (initiate_one_shot fuel)).
Proof.
  apply emits_bind; [apply emits_get_sensor_mode|].
  intros mode. apply emits_bind.
  { destruct (negb _); auto using emits_unchecked, emits_short_set_mode,
      emits_ret. }
  intros _. apply emits_unchecked, emits_short_initiate_one_shot.
Qed.

Lemma prelude_value {A} required fuel (k : M A) s a s' :
  (mode <- get_sensor_mode ;;
   (if negb (mode_eqb mode required)
    then unchecked (set_mode required) else ret tt) ;;;
   unchecked (initiate_one_shot fuel) ;;;
   wait_data_ready fuel ;;; k) s = (value a, s') ->
  exists before r s1,
    ready r /\
    trace s1 =
      trace s ++ before ++
      [transaction (bus_write_then_read device_address [STATUS_R] 1) r] /\
    k s1 = (value a, s').
Proof.
  intros H.
  destruct (emits_any_unchecked_part required fuel s) as [pre [E _]].
  revert E. unfold bind at 1 2. unfold bind at 1 in H.
  cbn [get_sensor_mode] in *.
  apply bind_value in H. destruct H as [[] [sa [Ha H]]].
  apply bind_value in H. destruct H as [[] [sb [Hb H]]].
  apply bind_value in H. destruct H as [[] [sc [Hc H]]].
  unfold bind. rewrite Ha, Hb. cbn [snd]. intros E.
  apply wait_value in Hc. destruct Hc as [before [r [Hr T]]].
  exists (pre ++ before), r, sc. split; [exact Hr|]. split; [| exact H].
  now rewrite T, E, <- !app_assoc.
Qed.

(** X17.  When [p_read] or [a_read] returns a value, the two last events
    of its run are a read of the status register and the acknowledged
    read of the three output registers; and the status read either showed
    the data-ready bit ([STATUS_PTDR]) set, or failed and was taken for
    "ready" by the loop condition.  The output registers are not fetched
    on a status byte that says "not ready". *)
Theorem reads_fetch_after_ready (fuel : nat) (s : mpl311 errc) :
  (forall p, fst (p_read fuel s) = value p ->
     exists before r d,
       ready r /\
       trace (snd (p_read fuel s)) =
         trace s ++ before ++
         [transaction (bus_write_then_read device_address [STATUS_R] 1) r;
          transaction (bus_write_then_read device_address [OUT_P_MSB_R] 3)
                      (ack d)])
  /\ (forall a, fst (a_read fuel s) = value a ->
       exists before r d,
         ready r /\
         trace (snd (a_read fuel s)) =
           trace s ++ before ++
           [transaction (bus_write_then_read device_address [STATUS_R] 1) r;
            transaction (bus_write_then_read device_address [OUT_P_MSB_R] 3)
                        (ack d)]).
Proof.
  split.
  - intros p. destruct (p_read fuel s) as [o s'] eqn:E. cbn [fst snd].
    intros ->. unfold p_read in E. apply prelude_value in E.
    destruct E as [before [r [s1 [Hr [T E]]]]].
    apply bind_value in E. destruct E as [buffer [s2 [Hf E]]].
    apply hal_write_then_read_value in Hf. destruct Hf as [d [-> ->]].
    repeat (apply bind_value in E;
            destruct E as [? [? [Hi E]]];
            apply at_index_value in Hi; destruct Hi as [_ ->]).
    injection E as _ <-. exists before, r, d. split; [exact Hr|].
    cbn [record trace]. now rewrite T, <- !app_assoc.
  - intros a. destruct (a_read fuel s) as [o s'] eqn:E. cbn [fst snd].
    intros ->. unfold a_read in E. apply prelude_value in E.
    destruct E as [before [r [s1 [Hr [T E]]]]].
    apply bind_value in E. destruct E as [buffer [s2 [Hf E]]].
    apply hal_write_then_read_value in Hf. destruct Hf as [d [-> ->]].
    repeat (apply bind_value in E;
            destruct E as [? [? [Hi E]]];
            apply at_index_value in Hi; destruct Hi as [_ ->]).
    injection E as _ <-. exists before, r, d. split; [exact Hr|].
    cbn [record trace]. now rewrite T, <- !app_assoc.
Qed.

(** *** The arithmetic of the temperature reading *)

(** X18.  The expression of [t_read] for the raw temperature,
    [uint16_t(a) << 8 | uint16_t(b)] stored in an [int16_t], is the
    number with [a] as its high byte in two's complement and [b] as its
    low byte: it is negative exactly when the top bit of [a] is set, and
    divided by 256 it lies from -128 up to, but not including, 128. *)
Theorem temp_reading_is_signed (a b : byte) :
  temp_reading a b = 256 * to_int8 (byte.unsigned a) + byte.unsigned b
  /\ (temp_reading a b < 0 <-> Z.testbit (byte.unsigned a) 7 = true)
  /\ -128 * 256 <= temp_reading a b < 128 * 256.
Proof.
  assert (E : temp_reading a b
              = 256 * to_int8 (byte.unsigned a) + byte.unsigned b).
  { pose proof (byte.unsigned_range a) as Ha.
    pose proof (byte.unsigned_range b) as Hb.
    change (2 ^ 8) with 256 in *.
    assert (L : Z.land (Z.shiftl (byte.unsigned a) 8) (byte.unsigned b) = 0).
    { apply Z.bits_inj'. intros i Hi. rewrite Z.land_spec, Z.bits_0.
      destruct (Z.lt_ge_cases i 8).
      - now rewrite Z.shiftl_spec_low.
      - rewrite byte_bits_high by lia. apply andb_false_r. }
    pose proof (Z.add_lor_land (Z.shiftl (byte.unsigned a) 8)
                  (byte.unsigned b)) as S.
    rewrite L, Z.add_0_r, Z.shiftl_mul_pow2 in S by lia.
    change (2 ^ 8) with 256 in S.
    unfold temp_reading, to_uint16. rewrite !Z.mod_small by lia.
    rewrite Z.shiftl_mul_pow2 by lia. change (2 ^ 8) with 256. rewrite S.
    unfold to_int16, to_int8. rewrite !Z.mod_small by lia.
    change (2 ^ 16) with 65536. change (2 ^ 15) with 32768.
    change (2 ^ 8) with 256. change (2 ^ 7) with 128.
    destruct (Z.ltb_spec (byte.unsigned a * 256 + byte.unsigned b) 32768);
      destruct (Z.ltb_spec (byte.unsigned a) 128); lia. }
  split; [exact E|]. rewrite E.
  pose proof (byte.unsigned_range a) as Ha.
  pose proof (byte.unsigned_range b) as Hb.
  change (2 ^ 8) with 256 in *.
  assert (T : Z.testbit (byte.unsigned a) 7 = (128 <=? byte.unsigned a)).
  { destruct a; reflexivity. }
  rewrite T. unfold to_int8. rewrite Z.mod_small by lia.
  change (2 ^ 8) with 256. change (2 ^ 7) with 128.
  destruct (Z.ltb_spec (byte.unsigned a) 128);
    destruct (Z.leb_spec 128 (byte.unsigned a)); try lia;
    repeat split; intros; try lia; try discriminate.
Qed.

(** *** Reads that need the other mode *)

Lemma set_mode_run mode s c :
  transport (trace s) (bus_write_then_read device_address [CTRL_REG1] 1)
    = ack [c] ->
  exists w,
    trace (snd (set_mode mode s)) =
      trace s ++
      [ctrl_read_back c;
       transaction (bus_write device_address [CTRL_REG1; mode_set_reg mode c])
                   w].
Proof.
  intros Hread. unfold set_mode, bind, hal_write_then_read.
  rewrite Hread. cbn. unfold hal_write. fold (ctrl_read_back c).
  cbn [record trace].
  generalize (transport (trace s ++ [ctrl_read_back c])
                (bus_write device_address [CTRL_REG1; mode_set_reg mode c])).
  intros w. exists w.
  destruct w; cbn; rewrite <- app_assoc; reflexivity.
Qed.

Lemma unchecked_then_trace {A B} P (m : M A) (k : unit -> M B) s :
  emits P (k tt) ->
  exists after,
    trace (snd (bind (unchecked m) k s)) = trace (snd (m s)) ++ after.
Proof.
  intros Hk. unfold bind, unchecked.
  destruct (m s) as [[a | e | | ] s1]; cbn [snd];
    try (destruct (Hk s1) as [after [E _]]; now exists after);
    exists []; now rewrite app_nil_r.
Qed.

Lemma prelude_switch {A} required fuel (k : M A) s c :
  emits expected k ->
  mode_eqb (sensor_mode s) required = false ->
  transport (trace s) (bus_write_then_read device_address [CTRL_REG1] 1)
    = ack [c] ->
  exists w rest,
    trace
      (snd ((mode <- get_sensor_mode ;;
             (if negb (mode_eqb mode required)
              then unchecked (set_mode required) else ret tt) ;;;
             unchecked (initiate_one_shot fuel) ;;;
             wait_data_ready fuel ;;; k) s)) =
      trace s ++
      [ctrl_read_back c;
       transaction
         (bus_write device_address [CTRL_REG1; mode_set_reg required c]) w]
      ++ rest.
Proof.
  intros Hk Hm Hread.
  set (rest := (unchecked (initiate_one_shot fuel) ;;;
                wait_data_ready fuel ;;; k)).
  assert (Hrest : emits expected rest).
  { apply emits_bind.
    - apply emits_unchecked, emits_expected_initiate_one_shot.
    - intros _. apply emits_bind; [apply emits_expected_wait|].
      intros _. exact Hk. }
  match goal with
  | |- exists w r, trace (snd ?run) = _ =>
      assert (E : run =
                  bind (if negb (mode_eqb (sensor_mode s) required)
                        then unchecked (set_mode required) else ret tt)
                       (fun _ => rest) s) by reflexivity
  end.
  rewrite E, Hm. cbn [negb]. clear E.
  destruct (unchecked_then_trace expected (set_mode required)
              (fun _ => rest) s Hrest) as [after Ha].
  destruct (set_mode_run required s c Hread) as [w Hw].
  exists w, after. now rewrite Ha, Hw, <- app_assoc.
Qed.

(** X19.  A [p_read] that finds the tracked mode at [ALTIMETER_M] starts
    with the mode switch: it reads control register 1 and, when the
    register reads back, writes the byte with bit 7 cleared, before any
    one-shot trigger.  An [a_read] that finds [BAROMETER_M] does the same
    with bit 7 set. *)
Theorem reads_switch_mode_first
    (fuel : nat) (s : mpl311 errc) (c : byte) :
  transport (trace s) (bus_write_then_read device_address [CTRL_REG1] 1)
    = ack [c] ->
  (sensor_mode s = ALTIMETER_M ->
   exists v w rest,
     mode_bit v = false /\
     trace (snd (p_read fuel s)) =
       trace s ++
       [ctrl_read_back c;
        transaction (bus_write device_address [CTRL_REG1; v]) w] ++ rest)
  /\ (sensor_mode s = BAROMETER_M ->
      exists v w rest,
        mode_bit v = true /\
        trace (snd (a_read fuel s)) =
          trace s ++
          [ctrl_read_back c;
           transaction (bus_write device_address [CTRL_REG1; v]) w] ++ rest).
Proof.
  intros Hread. split; intros Hm.
  - destruct (prelude_switch BAROMETER_M fuel
                (pres_buffer <- hal_write_then_read [OUT_P_MSB_R] 3 ;;
                 msb <- at_index pres_buffer 0 ;;
                 csb <- at_index pres_buffer 1 ;;
                 lsb <- at_index pres_buffer 2 ;;
                 ret {| pressure :=
                          inject_Z (pressure_reading msb csb lsb) / 64 |})
                s c) as [w [rest T]];
      [expected_steps | now rewrite Hm | exact Hread |].
    exists (mode_set_reg BAROMETER_M c), w, rest.
    split; [apply mode_set_reg_mode_bit | exact T].
  - destruct (prelude_switch ALTIMETER_M fuel
                (alt_buffer <- hal_write_then_read [OUT_P_MSB_R] 3 ;;
                 msb <- at_index alt_buffer 0 ;;
                 csb <- at_index alt_buffer 1 ;;
                 lsb <- at_index alt_buffer 2 ;;
                 ret {| altitude :=
                          inject_Z (alt_reading msb csb lsb) / 65536 |})
                s c) as [w [rest T]];
      [expected_steps | now rewrite Hm | exact Hread |].
    exists (mode_set_reg ALTIMETER_M c), w, rest.
    split; [apply mode_set_reg_mode_bit | exact T].
Qed.

End Driver.

(** ** Concrete runs on the simulated device *)

#[local] Existing Instance mpl3115a2.

(** C1 (what the code does).  On a device whose temperature registers
    hold 0x1A, 0x00, [t_read] gets these two bytes in its last transaction
    and then ends without a value, on the index 4 of its two-byte buffer:
    it does not return 26 degrees, which is what the conversion makes of
    the two bytes. *)
Theorem t_read_1a_00_is_undefined (error_flag : unit -> bool) :
  t_read (bench_transport healthy) error_flag 1 (fresh ALTIMETER_M) =
    (undefined,
     {| sensor_mode := ALTIMETER_M;
        trace :=
          [transaction (bus_write_then_read Byte.x60 [Byte.x26] 1)
                       (ack [Byte.x00]);
           transaction (bus_write Byte.x60 [Byte.x26; Byte.x02]) (ack []);
           transaction (bus_write_then_read Byte.x60 [Byte.x00] 1)
                       (ack [Byte.x08]);
           transaction (bus_write_then_read Byte.x60 [Byte.x04] 2)
                       (ack [Byte.x1a; Byte.x00])] |})
  /\ (inject_Z (temp_reading Byte.x1a Byte.x00) / 256 == 26)%Q.
Proof. split; reflexivity. Qed.

(** The run behind C3: the first altitude byte is 0x80, and the altitude
    is +32768 m. *)
Lemma a_read_top_bit_set :
  exists r : altitude_read_t,
    fst (a_read (bench_transport top_bit_set) polls_again 1
           (fresh ALTIMETER_M)) = value r
    /\ (altitude r == 32768)%Q
    /\ (0 <= altitude r)%Q.
Proof.
  exists {| altitude := (inject_Z 2147483648 / 65536)%Q |}.
  split; [reflexivity|]. split; [reflexivity|].
  apply (a_read_never_negative (bench_transport top_bit_set) polls_again 1
           (fresh ALTIMETER_M)).
  reflexivity.
Defined.

(** C7 (what the code does).  The status register fails once during the
    data-ready loop of [p_read].  Whatever truth value the loop sees for
    the failed call, [p_read] goes on to read the output registers and
    returns 1024 Pa; it does not return the transport's error. *)
Theorem p_read_ignores_poll_failure (error_flag : unit -> bool) :
  fst (p_read (bench_transport glitchy) error_flag 2 (fresh BAROMETER_M))
    = value {| pressure := (inject_Z 65536 / 64)%Q |}
  /\ In (transaction (bus_write_then_read Byte.x60 [Byte.x00] 1) (nack tt))
        (trace (snd (p_read (bench_transport glitchy) error_flag 2
                       (fresh BAROMETER_M))))
  /\ last (trace (snd (p_read (bench_transport glitchy) error_flag 2
                         (fresh BAROMETER_M))))
          (delay 0)
     = transaction (bus_write_then_read Byte.x60 [Byte.x01] 3)
                   (ack [Byte.x01; Byte.x00; Byte.x00]).
Proof.
  vm_compute. destruct (error_flag tt); repeat split; auto.
Qed.

(** C4 on the bench with another identity: [begin] stops after the
    identity transaction. *)
Lemma begin_on_stranger :
  begin (bench_transport stranger) 1 (fresh BAROMETER_M) =
    (value false,
     {| sensor_mode := BAROMETER_M;
        trace := [transaction (bus_write_then_read Byte.x60 [Byte.x0c] 1)
                              (ack [Byte.x00])] |}).
Proof.
  refine (begin_unexpected_device (bench_transport stranger) 1
            (fresh BAROMETER_M) Byte.x00 _ _).
  - reflexivity.
  - vm_compute. discriminate.
Defined.

(** C5 on the healthy bench: a pressure read in barometer mode, and a
    [set_mode] to the mode that is already tracked. *)
Lemma p_read_then_set_mode_on_bench :
  sensor_mode (snd (p_read (bench_transport healthy) polls_again 1
                      (fresh BAROMETER_M))) = BAROMETER_M
  /\ exists w : reply unit,
       trace (snd (set_mode (bench_transport healthy) BAROMETER_M
                     (fresh BAROMETER_M))) =
         [transaction (bus_write_then_read Byte.x60 [Byte.x26] 1)
                      (ack [Byte.x00]);
          transaction (bus_write Byte.x60 [Byte.x26; Byte.x00]) w].
Proof.
  destruct (p_read_skips_mode_write (bench_transport healthy) polls_again 1
              (fresh BAROMETER_M) BAROMETER_M (fresh BAROMETER_M) Byte.x00)
    as [Hread Hset].
  split.
  - exact (proj1 (Hread eq_refl)).
  - exact (Hset eq_refl).
Defined.

(** C6 on the healthy bench: the register reads 0x00 and [set_mode]
    writes 0x80. *)
Lemma set_mode_altimeter_on_bench :
  exists v : byte,
    set_mode (bench_transport healthy) ALTIMETER_M (fresh BAROMETER_M) =
      (value tt,
       {| sensor_mode := ALTIMETER_M;
          trace :=
            [transaction (bus_write_then_read Byte.x60 [Byte.x26] 1)
                         (ack [Byte.x00]);
             transaction (bus_write Byte.x60 [Byte.x26; v]) (ack [])] |})
    /\ (forall i, i <> 7 ->
           Z.testbit (byte.unsigned v) i
             = Z.testbit (byte.unsigned Byte.x00) i)
    /\ Z.testbit (byte.unsigned v) 7 = true.
Proof.
  exact (set_mode_forces_mode_bit (bench_transport healthy) ALTIMETER_M
           (fresh BAROMETER_M) Byte.x00 [] eq_refl eq_refl).
Defined.

(** The bench keeps the altitude-mode bit that was written to it. *)
Lemma bench_reads_back_as_written (b : bench) :
  forall tr d c bit,
    bench_transport b tr (bus_write_then_read Byte.x60 [Byte.x26] 1) = ack d ->
    nth_error (fill 1 d) 0 = Some c ->
    last_mode_bit tr = Some bit ->
    mode_bit c = bit.
Proof.
  intros tr d c bit. unfold bench_transport, last_mode_bit.
  cbn [Byte.eqb]. destruct (last_ctrl_write tr) as [v |]; [| discriminate].
  intros [= <-]. cbn [fill app firstn nth_error option_map].
  intros [= <-] [= <-]. destruct v; reflexivity.
Qed.


(** The device that is lost at its second reset keeps, as long as it
    answers, the altitude-mode bit that was written to it. *)
Lemma lost_at_second_reset_reads_back :
  forall tr d c bit,
    lost_at_second_reset tr (bus_write_then_read Byte.x60 [Byte.x26] 1)
      = ack d ->
    nth_error (fill 1 d) 0 = Some c ->
    last_mode_bit tr = Some bit ->
    mode_bit c = bit.
Proof.
  intros tr d c bit. unfold lost_at_second_reset.
  destruct (2 <=? _)%nat; [discriminate|].
  apply bench_reads_back_as_written.
Qed.


(** The run of a pressure read on the healthy bench. *)
Lemma p_read_trace_on_bench :
  trace (snd (p_read (bench_transport healthy) polls_again 1
                (fresh BAROMETER_M))) =
    trace (fresh BAROMETER_M) ++
    [transaction (bus_write_then_read Byte.x60 [Byte.x26] 1) (ack [Byte.x00]);
     transaction (bus_write Byte.x60 [Byte.x26; Byte.x02]) (ack []);
     transaction (bus_write_then_read Byte.x60 [Byte.x00] 1)
                 (ack [Byte.x08])] ++
    [transaction (bus_write_then_read device_address [OUT_P_MSB_R] 3)
                 (ack [Byte.x01; Byte.x00; Byte.x00])].
Proof. vm_compute. reflexivity. Qed.

(** C9 on the healthy bench: the output registers hold 0x01, 0x00, 0x00
    and [p_read] returns 1024 Pa. *)
Lemma p_read_1024_on_bench :
  exists r : pressure_read_t,
    fst (p_read (bench_transport healthy) polls_again 1 (fresh BAROMETER_M))
      = value r
    /\ (pressure r == 1024)%Q.
Proof.
  destruct (p_read_conversion (bench_transport healthy) polls_again 1
              (fresh BAROMETER_M) _ _ _ _ p_read_trace_on_bench)
    as [r [E [_ H]]].
  exists r. split; [exact E | now apply H].
Defined.

(** Half of 200000 Pa is 100000, which needs 17 bits: the low 16 bits
    are 0x86A0, and these are the two bytes written. *)
Lemma set_sea_pressure_200000_wraps :
  set_sea_pressure (bench_transport healthy) 200000 (fresh ALTIMETER_M)
    = (value tt,
       {| sensor_mode := ALTIMETER_M;
          trace := [transaction
                      (bus_write Byte.x60 [Byte.x14; Byte.x86; Byte.xa0])
                      (ack [])] |}).
Proof. reflexivity. Qed.


(** ** Further runs on the simulated devices *)

(** X4 on the device with the slow reset: three polls are needed, and
    [begin] under the bounds 3 and 10 is the same run. *)
Lemma begin_bound_on_slow_reset :
  begin slow_reset 10 (fresh BAROMETER_M)
    = begin slow_reset 3 (fresh BAROMETER_M).
Proof.
  refine (proj1 (results_do_not_depend_on_bound slow_reset polls_again)
            3%nat 10%nat (fresh BAROMETER_M) _ _).
  - repeat constructor.
  - vm_compute. discriminate.
Defined.

(** The one-shot trigger on the healthy bench. *)
Lemma initiate_one_shot_run_on_bench :
  fst (initiate_one_shot (bench_transport healthy) 1 (fresh BAROMETER_M))
    = value tt.
Proof. vm_compute. reflexivity. Qed.

(** X5 on the healthy bench. *)
Lemma initiate_one_shot_on_bench :
  sensor_mode
    (snd (initiate_one_shot (bench_transport healthy) 1 (fresh BAROMETER_M)))
    = BAROMETER_M.
Proof.
  exact (proj1 (initiate_one_shot_waits_for_clear (bench_transport healthy)
                  1 (fresh BAROMETER_M) initiate_one_shot_run_on_bench)).
Defined.

(** [begin] on the device with the slow reset. *)
Lemma begin_run_on_slow_reset :
  fst (begin slow_reset 3 (fresh BAROMETER_M)) = value true.
Proof. vm_compute. reflexivity. Qed.

(** X6 on the device with the slow reset: two reads with the reset bit
    set, then the handshake goes on. *)
Lemma begin_on_slow_reset :
  sensor_mode (snd (begin slow_reset 3 (fresh BAROMETER_M))) = ALTIMETER_M.
Proof.
  exact (proj1 (begin_true_handshake slow_reset 3 (fresh BAROMETER_M)
                  begin_run_on_slow_reset)).
Defined.

(** [begin] on the bench with another identity. *)
Lemma begin_run_on_stranger :
  fst (begin (bench_transport stranger) 1 (fresh BAROMETER_M)) = value false.
Proof. vm_compute. reflexivity. Qed.

(** X7 on the bench with another identity. *)
Lemma begin_false_on_stranger :
  exists id w,
    nth_error (fill 1 id) 0 = Some w /\ byte.unsigned w <> 0xC4 /\
    snd (begin (bench_transport stranger) 1 (fresh BAROMETER_M)) =
      record (transaction (bus_write_then_read device_address [WHOAMI_R] 1)
                          (ack id)) (fresh BAROMETER_M).
Proof.
  exact (begin_false_only_on_mismatch (bench_transport stranger) 1
           (fresh BAROMETER_M) begin_run_on_stranger).
Defined.

(** A pressure read on the bus where every transaction fails, with a loop
    condition that takes a failure for "ready". *)
Lemma p_read_run_on_dead_bus :
  fst (p_read dead_bus gives_up 1 (fresh ALTIMETER_M)) = failure tt.
Proof. vm_compute. reflexivity. Qed.

(** X8 on the dead bus: four transactions fail, the last one ends the
    read. *)
Lemma p_read_on_dead_bus :
  exists before,
    trace (snd (p_read dead_bus gives_up 1 (fresh ALTIMETER_M))) =
      trace (fresh ALTIMETER_M) ++ before ++
      [transaction (bus_write_then_read device_address [OUT_P_MSB_R] 3)
                   (nack tt)].
Proof.
  exact (p_read_failure dead_bus gives_up 1 (fresh ALTIMETER_M) tt
           p_read_run_on_dead_bus).
Defined.

(** The run of an altitude read on the bench with 0x00, 0x01, 0x00. *)
Lemma a_read_trace_on_bench :
  trace (snd (a_read (bench_transport one_metre) polls_again 1
                (fresh ALTIMETER_M))) =
    trace (fresh ALTIMETER_M) ++
    [transaction (bus_write_then_read Byte.x60 [Byte.x26] 1) (ack [Byte.x00]);
     transaction (bus_write Byte.x60 [Byte.x26; Byte.x02]) (ack []);
     transaction (bus_write_then_read Byte.x60 [Byte.x00] 1)
                 (ack [Byte.x08])] ++
    [transaction (bus_write_then_read device_address [OUT_P_MSB_R] 3)
                 (ack [Byte.x00; Byte.x01; Byte.x00])].
Proof. vm_compute. reflexivity. Qed.

(** X12 on that bench: 1 m. *)
Lemma a_read_one_metre_on_bench :
  exists r : altitude_read_t,
    fst (a_read (bench_transport one_metre) polls_again 1
           (fresh ALTIMETER_M)) = value r
    /\ (altitude r == 1)%Q.
Proof.
  destruct (a_read_conversion (bench_transport one_metre) polls_again 1
              (fresh ALTIMETER_M) _ _ _ _ a_read_trace_on_bench)
    as [r [E [_ [_ H]]]].
  exists r. split; [exact E | now apply H].
Defined.

(** X15 for an offset of -5 m. *)
Lemma set_altitude_offset_minus_5 :
  exists w : reply unit,
    trace (snd (set_altitude_offset (bench_transport healthy) (-5)
                  (fresh ALTIMETER_M))) =
      [transaction (bus_write Byte.x60 [Byte.x2d; Byte.xfb]) w].
Proof.
  destruct (set_altitude_offset_round_trip (bench_transport healthy) (-5)
              (fresh ALTIMETER_M))
    as [b [w [T [_ P]]]]; [lia|].
  rewrite (P eq_refl) in T. exists w. exact T.
Defined.

(** X16 for 101327 Pa: the number written is 50663, and twice that is
    within 2 Pa below the input. *)
Lemma set_sea_pressure_101327 :
  exists (msb lsb : byte),
    (inject_Z (2 * (256 * byte.unsigned msb + byte.unsigned lsb))
       <= 101327)%Q
    /\ (101327
        < inject_Z (2 * (256 * byte.unsigned msb + byte.unsigned lsb) + 2))%Q.
Proof.
  destruct (set_sea_pressure_rounds_down (bench_transport healthy) 101327%Q
              (fresh ALTIMETER_M))
    as [msb [lsb [w [_ [Hlo Hhi]]]]].
  - discriminate.
  - reflexivity.
  - now exists msb, lsb.
Defined.

(** X19 on the healthy bench, for the first pressure read after [begin]:
    the register reads back 0xB8 and the read starts by writing 0x38. *)
Lemma p_read_after_begin_on_bench :
  exists v w rest,
    mode_bit v = false /\
    trace (snd (p_read (bench_transport healthy) polls_again 1
                  (snd (begin (bench_transport healthy) 1
                          (fresh BAROMETER_M))))) =
      trace (snd (begin (bench_transport healthy) 1 (fresh BAROMETER_M))) ++
      [ctrl_read_back Byte.xb8;
       transaction (bus_write device_address [CTRL_REG1; v]) w] ++ rest.
Proof.
  refine (proj1 (reads_switch_mode_first (bench_transport healthy)
                   polls_again 1
                   (snd (begin (bench_transport healthy) 1
                           (fresh BAROMETER_M)))
                   Byte.xb8 _) _).
  - vm_compute. reflexivity.
  - vm_compute. reflexivity.
Defined.
